(** * TESScut / exo.MAST tutorial: the two data transforms of the notebook

    A shallow embedding of the code cells of
    [tesscut_exomast/TESScut_ExoMAST_Tutorial.ipynb] that carry logic:

    - [find_index]     nearest-timestamp lookup in the cutout table,
    - [make_animation] the frame range it hands to the animation,
    - [json_to_table]  the JSON-to-table conversion.

    Numbers are exact: a timestamp is a rational ([Q]), so the rounding of
    binary64 arithmetic is outside the model; NaN appears only as the value
    numpy stores for [None] in a float column.  Text is [string] (one
    character per byte, i.e. ASCII). *)

From Stdlib Require Import QArith Qabs Qminmax ZArith Lia Lqa.
From Stdlib Require Import Ascii String DecimalString DecimalPos.
From stdpp Require Import gmap strings list.

#[local] Set Warnings "-clear-no-such-hyp".

(** ** Python exceptions and results *)

Module Py.

(** The exceptions the modelled cells can raise, one constructor per
    Python exception class and origin. *)
Inductive exn : Type :=
| ValueError_argmin_empty
    (* numpy: attempt to get argmin of an empty sequence *)
| AttributeError_NoneType_group
    (* 'NoneType' object has no attribute 'group' *)
| TypeError_dtype (name : string)
    (* numpy: data type 'name' not understood *)
| ValueError_float (s : string)
    (* could not convert string to float: 's' *)
| ValueError_int (s : string)
    (* invalid literal for int() with base 10: 's' *)
| TypeError_int_NoneType
    (* int() argument must be a string, a bytes-like object or a real
       number, not 'NoneType' *)
| OverflowError_int
    (* Python int too large to convert to C long *)
| ValueError_column_length.
    (* astropy: Inconsistent data column lengths *)

Inductive result (A : Type) : Type :=
| Ok (a : A)
| Raise (e : exn).
Arguments Ok {A} a.
Arguments Raise {A} e.

Definition bind {A B} (r : result A) (k : A -> result B) : result B :=
  match r with
  | Ok a => k a
  | Raise e => Raise e
  end.

(** [for x in l: acc = body(x, acc)], stopping at the first exception. *)
Fixpoint for_each {A S} (body : A -> S -> result S) (l : list A) (acc : S)
  : result S :=
  match l with
  | [] => Ok acc
  | x :: l' => bind (body x acc) (for_each body l')
  end.

(** [[f(x) for x in l]] where [f] may raise. *)
Fixpoint comprehension {A B} (f : A -> result B) (l : list A)
  : result (list B) :=
  match l with
  | [] => Ok []
  | x :: l' =>
      bind (f x) (fun y => bind (comprehension f l') (fun ys => Ok (y :: ys)))
  end.

(** The error classes of the specification, and the Python exceptions
    that fall under each. *)
Inductive error_class : Type :=
| EmptySequenceError
| TypeMappingError
| ValueCoercionError.

Definition classify (e : exn) : error_class :=
  match e with
  | ValueError_argmin_empty => EmptySequenceError
  | AttributeError_NoneType_group => TypeMappingError
  | TypeError_dtype _ => TypeMappingError
  | ValueError_float _ => ValueCoercionError
  | ValueError_int _ => ValueCoercionError
  | TypeError_int_NoneType => ValueCoercionError
  | OverflowError_int => ValueCoercionError
  | ValueError_column_length => ValueCoercionError
  end.

End Py.
Export Py.

#[global] Instance result_ret : MRet result := @Ok.
#[global] Instance result_bind : MBind result :=
  fun A B k r => Py.bind r k.

(** ** numpy: element-wise arithmetic and [argmin] *)

Module Np.

Definition Qltb (x y : Q) : bool := negb (Qle_bool y x).

(** [col - btjd], broadcasting the scalar. *)
Definition sub_scalar (col : list Q) (x : Q) : list Q :=
  (fun t => (t - x)%Q) <$> col.

(** [np.abs(a)]. *)
Definition abs (a : list Q) : list Q := Qabs <$> a.

(** The left-to-right scan of [argmin]: [best] is the smallest element
    seen so far and [best_i] its index, [i] the index of the head of
    [a].  Only a strictly smaller element replaces the current one. *)
Fixpoint argmin_scan (best_i : nat) (best : Q) (i : nat) (a : list Q) : nat :=
  match a with
  | [] => best_i
  | x :: a' =>
      if Qltb x best then argmin_scan i x (S i) a'
      else argmin_scan best_i best (S i) a'
  end.

(** [a.argmin()]: numpy raises [ValueError] on an empty array. *)
Definition argmin (a : list Q) : result nat :=
  match a with
  | [] => Raise ValueError_argmin_empty
  | x :: a' => Ok (argmin_scan 0 x 1 a')
  end.

End Np.

(** ** The notebook's global names *)

(** One 2D image of the cutout. *)
Definition image : Type := list (list Q).

(** [cutout_table = cutout_hdu[1].data]: the columns the notebook reads. *)
Record fits_rec : Type := {
  TIME : list Q;
  FLUX : list image
}.

(** The module-level names alive when [find_index] is called. *)
Record globals : Type := {
  weird_tic_id : string;
  exomast_url : string;
  cutout_table : fits_rec
}.

(** ** [find_index]

<<
def find_index(btjd):
    return (np.abs(cutout_table['TIME'] - btjd)).argmin()
>>
    The function reads the global [cutout_table]; the globals are threaded
    as an explicit argument and returned, as a state-passing function. *)
Definition find_index (btjd : Q) (g : globals) : result nat * globals :=
  (Np.argmin (Np.abs (Np.sub_scalar (TIME (cutout_table g)) btjd)), g).

(** The globals of a session whose cutout has the given [TIME] column. *)
Definition session (time : list Q) : globals :=
  {| weird_tic_id := "00214568914";
     exomast_url := "https://exo.mast.stsci.edu/api/v0.1/";
     cutout_table := {| TIME := time; FLUX := [] |} |}.

(** ** [make_animation]: the frame range

<<
    if not end_frame:
        end_frame = len(data_array) - 1 # set to the end of the array
    num_frames = end_frame - start_frame + 1 # include the end frame
>>
    [end_frame] is [None] or an integer; [not end_frame] holds for [None]
    and for [0]. *)
Definition py_not (x : option Z) : bool :=
  match x with
  | None => true
  | Some z => (z =? 0)%Z
  end.

Definition num_frames (len_data_array : Z) (start_frame : Z)
    (end_frame : option Z) : Z :=
  let end_frame :=
    if py_not end_frame then (len_data_array - 1)%Z
    else default 0%Z end_frame in
  (end_frame - start_frame + 1)%Z.

(** [FuncAnimation(..., frames=num_frames)] calls [animate(i, ...)] for
    [i] in [range(num_frames)], and [animate] shows [binarytab[i+start]]:
    the indices of the frames shown, in order. *)
Definition frames_shown (len_data_array : Z) (start_frame : Z)
    (end_frame : option Z) : list Z :=
  (fun i => (Z.of_nat i + start_frame)%Z)
    <$> seq 0 (Z.to_nat (num_frames len_data_array start_frame end_frame)).

(** [a[k]] with Python's negative indices; [None] stands for IndexError. *)
Definition py_getitem {A} (a : list A) (k : Z) : option A :=
  let n := Z.of_nat (length a) in
  if (k <? 0)%Z then
    if (n + k <? 0)%Z then None else a !! Z.to_nat (n + k)
  else a !! Z.to_nat k.

(** [make_animation(data_array, start_frame, end_frame)]: the animation
    returned, as the frames of [data_array] it runs through, in order
    (the colour range and the delay do not bear on the frames). *)
Definition make_animation {A} (data_array : list A) (start_frame : Z)
    (end_frame : option Z) : list (option A) :=
  py_getitem data_array
    <$> frames_shown (Z.of_nat (length data_array)) start_frame end_frame.


(** ** [make_animation]: the colour range, the first frame, the whole call

<<
    if not vmin:
        vmin = np.min(data_array)
    if not vmax:
        vmax = np.max(data_array)
    ...
    ax.imshow(data_array[start_frame], cmap=plt.cm.YlGnBu_r, vmin=vmin, vmax=vmax)
>>
*)

(** What the call can raise before the animation exists. *)
Inductive animation_error : Type :=
| ValueError_zero_size
    (* numpy: zero-size array to reduction operation which has no identity *)
| IndexError_frame.
    (* index out of bounds for axis 0 *)

(** All the numbers of an array of images. *)
Definition pixels (data_array : list image) : list Q :=
  concat ((fun img : image => concat img) <$> data_array).

(** [np.min(a)] and [np.max(a)]; [None] stands for the ValueError numpy
    raises on an array without elements. *)
Definition np_min (a : list Q) : option Q :=
  match a with
  | [] => None
  | x :: a' => Some (foldl Qmin x a')
  end.

Definition np_max (a : list Q) : option Q :=
  match a with
  | [] => None
  | x :: a' => Some (foldl Qmax x a')
  end.

(** [not v] for a limit that is [None] or a number: true for [None] and
    for zero. *)
Definition py_not_number (v : option Q) : bool :=
  match v with
  | None => true
  | Some q => Qeq_bool q 0
  end.

(** The colour range in use after the two tests, lower limit first. *)
Definition colour_limits (data_array : list image) (vmin vmax : option Q)
  : animation_error + (Q * Q) :=
  match (if py_not_number vmin then np_min (pixels data_array) else vmin) with
  | None => inl ValueError_zero_size
  | Some lo =>
      match (if py_not_number vmax then np_max (pixels data_array) else vmax) with
      | None => inl ValueError_zero_size
      | Some hi => inr (lo, hi)
      end
  end.

(** What [make_animation] returns: the colour range, the image of the
    initial plot, and the frames the animation runs through. *)
Record animation : Type := {
  limits : Q * Q;
  initial_plot : image;
  frames : list (option image)
}.

(** The call in full: the limits are settled first, then the initial
    plot reads [data_array[start_frame]], then the animation is built. *)
Definition make_animation_call (data_array : list image) (start_frame : Z)
    (end_frame : option Z) (vmin vmax : option Q)
  : animation_error + animation :=
  match colour_limits data_array vmin vmax with
  | inl e => inl e
  | inr lim =>
      match py_getitem data_array start_frame with
      | None => inl IndexError_frame
      | Some img =>
          inr {| limits := lim;
                 initial_plot := img;
                 frames := make_animation data_array start_frame end_frame |}
      end
  end.

(** ** The cell that reports the frame range

<<
print(f"Frames {start}-{end} ({end-start} frames)")
>>
*)
Definition frames_message (start_index end_index : Z) : string :=
  ("Frames " +:+ NilEmpty.string_of_int (Z.to_int start_index)
   +:+ "-" +:+ NilEmpty.string_of_int (Z.to_int end_index)
   +:+ " (" +:+ NilEmpty.string_of_int (Z.to_int (end_index - start_index))
   +:+ " frames)")%string.

(** ** Text: [in], [str.strip] and the regular expression *)

Module Text.

#[local] Open Scope string_scope.

Definition code (c : ascii) : nat := nat_of_ascii c.

(** [needle in hay] for two strings. *)
Fixpoint contains (needle hay : string) : bool :=
  String.prefix needle hay ||
  match hay with
  | EmptyString => false
  | String _ hay' => contains needle hay'
  end.

(** Whitespace of [str.strip()] in the ASCII range: TAB, LF, VT, FF, CR,
    the separators FS, GS, RS, US, and the space. *)
Definition is_space (c : ascii) : bool :=
  let n := code c in
  ((9 <=? n) && (n <=? 13) || (28 <=? n) && (n <=? 32))%nat.

Fixpoint lstrip (s : string) : string :=
  match s with
  | EmptyString => EmptyString
  | String c s' => if is_space c then lstrip s' else s
  end.

Fixpoint rstrip (s : string) : string :=
  match s with
  | EmptyString => EmptyString
  | String c s' =>
      match rstrip s' with
      | EmptyString => if is_space c then EmptyString else String c EmptyString
      | r => String c r
      end
  end.

(** [s.strip()]. *)
Definition strip (s : string) : string := rstrip (lstrip s).

(** [\d] on ASCII text. *)
Definition is_digit (c : ascii) : bool :=
  let n := code c in ((48 <=? n) && (n <=? 57))%nat.

(** The longest prefix of digits, and what follows it. *)
Fixpoint span_digits (s : string) : string * string :=
  match s with
  | EmptyString => (EmptyString, EmptyString)
  | String c s' =>
      if is_digit c then
        let '(ds, rest) := span_digits s' in (String c ds, rest)
      else (EmptyString, s)
  end.

(** [Some rest] when [s = p ++ rest]. *)
Fixpoint strip_prefix (p s : string) : option string :=
  match p, s with
  | EmptyString, _ => Some s
  | String a p', String b s' =>
      if Ascii.eqb a b then strip_prefix p' s' else None
  | String _ _, EmptyString => None
  end.

(** [varchar\((\d+)\)] anchored at the start of [s]: group 1 of the
    match.  [\d+] is greedy and must be followed by a closing
    parenthesis, so the only candidate is the whole run of digits. *)
Definition rx_match (s : string) : option string :=
  match strip_prefix "varchar(" s with
  | None => None
  | Some rest =>
      match span_digits rest with
      | (String d ds, String c _) =>
          if Ascii.eqb c ")" then Some (String d ds) else None
      | _ => None
      end
  end.

(** [rx.search(s)]: the match at the leftmost position that has one,
    as its group 1; [None] when there is none. *)
Fixpoint rx_search (s : string) : option string :=
  match rx_match s with
  | Some g => Some g
  | None =>
      match s with
      | EmptyString => None
      | String _ s' => rx_search s'
      end
  end.

(** The value of a string of decimal digits. *)
Definition digit_value (c : ascii) : nat := (code c - 48)%nat.

Fixpoint decimal_value_from (acc : nat) (ds : string) : nat :=
  match ds with
  | EmptyString => acc
  | String c ds' => decimal_value_from (10 * acc + digit_value c)%nat ds'
  end.

Definition decimal_value (ds : string) : nat := decimal_value_from 0%nat ds.

Fixpoint all_digits (s : string) : bool :=
  match s with
  | EmptyString => true
  | String c s' => is_digit c && all_digits s'
  end.

(** [s[:n]]. *)
Fixpoint truncate (n : nat) (s : string) : string :=
  match n, s with
  | S n', String c s' => String c (truncate n' s')
  | _, _ => EmptyString
  end.

(** [str(z)] for an integer. *)
Definition str_int (z : Z) : string := NilEmpty.string_of_int (Z.to_int z).

End Text.
Import Text.

(** ** Python scalars and numpy arrays *)

(** A value of a JSON record: [None], an integer, a float or a string. *)
Inductive pyval : Type :=
| PNone
| PInt (z : Z)
| PFloat (x : Q)
| PStr (s : string).

(** A binary64 cell: a number or NaN. *)
Inductive float64 : Type :=
| NaN
| Fin (x : Q).

(** The storage types modelled: [U w] is numpy's fixed-width text of [w]
    characters ([U 0] leaves the width to the data), then float64 and
    int64. *)
Inductive dtype : Type :=
| U (w : nat)
| Float64
| Int64.

(** A one-dimensional array; the constructor is its dtype. *)
Inductive ndarray : Type :=
| UArr (w : nat) (a : list string)
| FloatArr (a : list float64)
| IntArr (a : list Z).

Definition len (a : ndarray) : nat :=
  match a with
  | UArr _ a => length a
  | FloatArr a => length a
  | IntArr a => length a
  end.

Definition dtype_of (a : ndarray) : dtype :=
  match a with
  | UArr w _ => U w
  | FloatArr _ => Float64
  | IntArr _ => Int64
  end.

(** What the cells call in CPython and numpy and the notebook does not
    define: the text of a float, the number a string reads as, the
    conversion of a scalar that is not [None] to int64, and numpy's type
    names other than ["float"] and ["U<digits>"].  [None] in
    [float_of_str] and in [dtype_alias] stands for the library's
    exception. *)
Class Externals : Type := {
  float_repr : Q -> string;
  float_of_str : string -> option float64;
  int_of_scalar : pyval -> result Z;
  dtype_alias : string -> option dtype
}.

Module Numpy.
Section WithExternals.

Context {ext : Externals}.

(** [np.dtype(name)] for a type given by name. *)
Definition dtype_of_name (name : string) : option dtype :=
  if String.eqb name "float" then Some Float64
  else
    match name with
    | String "U" ds =>
        if all_digits ds then Some (U (decimal_value ds))
        else dtype_alias name
    | _ => dtype_alias name
    end.

(** [str(v)]. *)
Definition str (v : pyval) : string :=
  match v with
  | PNone => "None"
  | PInt z => str_int z
  | PFloat x => float_repr x
  | PStr s => s
  end.

(** One element stored in a float64 array. *)
Definition to_float64 (v : pyval) : result float64 :=
  match v with
  | PNone => Ok NaN
  | PInt z => Ok (Fin (inject_Z z))
  | PFloat x => Ok (Fin x)
  | PStr s =>
      match float_of_str s with
      | Some f => Ok f
      | None => Raise (ValueError_float s)
      end
  end.

(** One element stored in an int64 array. *)
Definition to_int64 (v : pyval) : result Z :=
  match v with
  | PNone => Raise TypeError_int_NoneType
  | _ => int_of_scalar v
  end.

(** The width numpy finds for unsized text: the longest element, at
    least one character. *)
Definition discovered_width (a : list string) : nat :=
  max 1 (max_list (String.length <$> a)).

(** [np.array(values, dtype=dt)] for a resolved dtype. *)
Definition array_of (values : list pyval) (dt : dtype) : result ndarray :=
  match dt with
  | U 0 =>
      let a := str <$> values in Ok (UArr (discovered_width a) a)
  | U w => Ok (UArr w ((fun v => truncate w (str v)) <$> values))
  | Float64 => a ← comprehension to_float64 values; Ok (FloatArr a)
  | Int64 => a ← comprehension to_int64 values; Ok (IntArr a)
  end.

(** [np.array(values, dtype=name)]: the name is resolved first. *)
Definition array (values : list pyval) (name : string) : result ndarray :=
  match dtype_of_name name with
  | None => Raise (TypeError_dtype name)
  | Some dt => array_of values dt
  end.

End WithExternals.
End Numpy.

(** ** astropy [Table] *)

Module Table.

(** Columns in order, each under its name; names are distinct. *)
Definition t : Type := list (string * ndarray).

Definition colnames (tb : t) : list string := tb.*1.

(** [tb[name]]. *)
Fixpoint getitem (tb : t) (name : string) : option ndarray :=
  match tb with
  | [] => None
  | (n, c) :: tb' => if String.eqb n name then Some c else getitem tb' name
  end.

(** The column under [name] replaced where it stands. *)
Fixpoint replace_column (tb : t) (name : string) (value : ndarray) : t :=
  match tb with
  | [] => []
  | (n, c) :: tb' =>
      if String.eqb n name then (n, value) :: tb'
      else (n, c) :: replace_column tb' name value
  end.

(** Whether every column other than [name] has the length of [value]. *)
Definition fits (tb : t) (name : string) (value : ndarray) : bool :=
  forallb (fun nc => String.eqb nc.1 name || (len nc.2 =? len value)%nat) tb.

(** The table with [value] under [name]: a new name appends a column,
    an existing name has its column replaced. *)
Definition upsert (tb : t) (name : string) (value : ndarray) : t :=
  match getitem tb name with
  | Some _ => replace_column tb name value
  | None => tb ++ [(name, value)]
  end.

(** [tb[name] = value]: a column whose length differs from that of the
    other columns is refused. *)
Definition setitem (tb : t) (name : string) (value : ndarray) : result t :=
  if fits tb name value then Ok (upsert tb name value)
  else Raise ValueError_column_length.

End Table.

(** ** [json_to_table] *)

(** One entry of [fields]: [{colname:, datatype:, description:}]. *)
Record field : Type := {
  colname : string;
  datatype : string;
  description : string
}.

Section JsonToTable.

Context {ext : Externals}.

(** The dtype name built from [atype]:
<<
      if "varchar" in atype:
          match = rx.search(atype)
          atype = "U" + match.group(1)
      if atype == "real":
          atype = "float"
>>
    [match.group(1)] raises AttributeError when [match] is [None]. *)
Definition storage_name (atype : string) : result string :=
  atype ← (if contains "varchar" atype then
             match rx_search atype with
             | Some g1 => Ok ("U" +:+ g1)
             | None => Raise AttributeError_NoneType_group
             end
           else Ok atype);
  Ok (if String.eqb atype "real" then "float" else atype).

(** [[x.get(col, None) for x in data]]. *)
Definition column_values (col : string) (data : list (gmap string pyval))
  : list pyval :=
  (fun x => default PNone (x !! col)) <$> data.

(** The array on the right-hand side of the assignment in the loop. *)
Definition new_column (data : list (gmap string pyval)) (x : field)
  : result ndarray :=
  let col := strip (colname x) in
  atype ← storage_name (datatype x);
  Numpy.array (column_values col data) atype.

(** One turn of the loop over [fields]. *)
Definition add_field (data : list (gmap string pyval)) (x : field)
    (data_table : Table.t) : result Table.t :=
  value ← new_column data x;
  Table.setitem data_table (strip (colname x)) value.

(** [json_to_table(fields, data)]: the loop starts from [Table()]. *)
Definition json_to_table (fields : list field)
    (data : list (gmap string pyval)) : result Table.t :=
  for_each (add_field data) fields [].

End JsonToTable.

(** ** An instance of the externals, to run the definitions

    Of numpy's further type names the instance knows ["int"], ["int64"],
    ["float64"] and ["str"].  It reads plain decimal literals (an optional
    sign, digits, an optional fraction) and [nan]; CPython also reads
    exponents, infinities and underscores, which are left out.  It prints
    a float by its decimal expansion, as CPython does for numbers of
    moderate size with few digits. *)
Module Sample.

#[local] Open Scope string_scope.

(** The sign of a literal, and what follows it. *)
Definition split_sign (s : string) : bool * string :=
  match s with
  | String "-" r => (true, r)
  | String "+" r => (false, r)
  | _ => (false, s)
  end.

Definition signed (neg : bool) (z : Z) : Z := if neg then (- z)%Z else z.

(** [int(s)]. *)
Definition read_int (s : string) : option Z :=
  let '(neg, r) := split_sign (strip s) in
  match r with
  | EmptyString => None
  | _ =>
      if all_digits r then Some (signed neg (Z.of_nat (decimal_value r)))
      else None
  end.

Definition lower (c : ascii) : ascii :=
  let n := code c in
  if ((65 <=? n) && (n <=? 90))%nat then ascii_of_nat (n + 32) else c.

Fixpoint lowercase (s : string) : string :=
  match s with
  | EmptyString => EmptyString
  | String c s' => String (lower c) (lowercase s')
  end.

(** The exponent part of a literal: nothing, or [e] and a signed run
    of digits. *)
Definition read_exponent (s : string) : option Z :=
  match s with
  | EmptyString => Some 0%Z
  | String c r =>
      if String.eqb (String (lower c) EmptyString) "e" then
        let '(neg, ds) := split_sign r in
        match ds with
        | EmptyString => None
        | _ =>
            if all_digits ds then Some (signed neg (Z.of_nat (decimal_value ds)))
            else None
        end
      else None
  end.

(** [float(s)]. *)
Definition read_float (s : string) : option float64 :=
  let '(neg, r) := split_sign (strip s) in
  if String.eqb (lowercase r) "nan" then Some NaN
  else
    let '(ip, rest) := span_digits r in
    let '(fp, rest) :=
      match rest with
      | String "." after => span_digits after
      | _ => (EmptyString, rest)
      end in
    if String.eqb ip EmptyString && String.eqb fp EmptyString then None
    else
      match read_exponent rest with
      | None => None
      | Some e =>
          let e := (e - Z.of_nat (String.length fp))%Z in
          let num := (Z.of_nat (decimal_value ip) * 10 ^ Z.of_nat (String.length fp)
                      + Z.of_nat (decimal_value fp))%Z in
          Some (Fin (if (0 <=? e)%Z
                     then inject_Z (signed neg (num * 10 ^ e))
                     else Qmake (signed neg num) (Z.to_pos (10 ^ (- e)))))
      end.

(** The digits of [r / d] after the point, for [0 <= r < d]. *)
Fixpoint fraction_digits (fuel : nat) (r d : Z) : string :=
  match fuel with
  | O => EmptyString
  | S fuel' =>
      if (r =? 0)%Z then EmptyString
      else
        String (ascii_of_nat (48 + Z.to_nat (10 * r / d)))
          (fraction_digits fuel' (10 * r mod d)%Z d)
  end.

(** [str(x)] for a float. *)
Definition print_float (x : Q) : string :=
  let n := Z.abs (Qnum x) in
  let d := Zpos (Qden x) in
  let r := (n mod d)%Z in
  (if (Qnum x <? 0)%Z then "-" else EmptyString)
  +:+ str_int (n / d) +:+ "."
  +:+ (if (r =? 0)%Z then "0" else fraction_digits 17 r d).

Definition int64_range (z : Z) : bool :=
  ((- 2 ^ 63 <=? z) && (z <? 2 ^ 63))%Z.

(** One scalar other than [None] stored in an int64 array: a float is
    truncated toward zero. *)
Definition int_of (v : pyval) : result Z :=
  match v with
  | PNone => Raise TypeError_int_NoneType
  | PInt z => if int64_range z then Ok z else Raise OverflowError_int
  | PFloat x => Ok (Z.quot (Qnum x) (Zpos (Qden x)))
  | PStr s =>
      match read_int s with
      | Some z => if int64_range z then Ok z else Raise OverflowError_int
      | None => Raise (ValueError_int s)
      end
  end.

Definition alias (name : string) : option dtype :=
  if String.eqb name "int" || String.eqb name "int64" then Some Int64
  else if String.eqb name "float64" then Some Float64
  else if String.eqb name "str" then Some (U 0)
  else None.

End Sample.

#[global] Instance sample_externals : Externals := {|
  float_repr := Sample.print_float;
  float_of_str := Sample.read_float;
  int_of_scalar := Sample.int_of;
  dtype_alias := Sample.alias
|}.

(** ** A small light curve, to run the definitions *)

(** A schema entry without description. *)
Definition entry (name atype : string) : field :=
  {| colname := name; datatype := atype; description := EmptyString |}.

Definition time_entry : field := entry "TIME" "real".
Definition target_entry : field := entry " TARGET " "varchar(3)".

Definition light_curve_fields : list field := [time_entry; target_entry].

Definition light_curve_rows : list (gmap string pyval) :=
  [ {[ "TIME" := PFloat 1330.5%Q; "TARGET" := PStr "TOI-1234" ]};
    {[ "TIME" := PInt 1331 ]};
    ∅ ].

Definition light_curve_table : Table.t :=
  [ ("TIME", FloatArr [Fin 1330.5%Q; Fin (inject_Z 1331); NaN]);
    ("TARGET", UArr 3 ["TOI"; "Non"; "Non"]) ].

(** The cutout of a session with five frames, one blank image each. *)
Definition five_frames : globals :=
  {| weird_tic_id := "00214568914";
     exomast_url := "https://exo.mast.stsci.edu/api/v0.1/";
     cutout_table :=
       {| TIME := [1333.0; 1333.5; 1334.0; 1334.5; 1335.0]%Q;
          FLUX := [[]; []; []; []; []] |} |}.

(** The same session with one pixel in each image. *)
Definition five_images : globals :=
  {| weird_tic_id := "00214568914";
     exomast_url := "https://exo.mast.stsci.edu/api/v0.1/";
     cutout_table :=
       {| TIME := [1333.0; 1333.5; 1334.0; 1334.5; 1335.0]%Q;
          FLUX := [[[1]]; [[2]]; [[3]]; [[4]]; [[5]]]%Q |} |}.

(** Two images of one row and two pixels. *)
Definition two_images : list image := [[[1; 2]]; [[3; 0.5]]]%Q.

(** ** Notions used to state the properties *)

Section Notions.

#[local] Open Scope Q_scope.

(** [i] is the first position of [l] that holds a least element. *)
Definition first_min (l : list Q) (i : nat) : Prop :=
  exists x, l !! i = Some x /\
    (forall j y, l !! j = Some y -> x <= y) /\
    (forall j y, l !! j = Some y -> (j < i)%nat -> x < y).

(** The absolute difference between a timestamp and the query. *)
Definition distance (t q : Q) : Q := Qabs (t - q).

(** [i] is an index of [ts] nearest to [q], and the first of them. *)
Definition nearest_first (ts : list Q) (q : Q) (i : nat) : Prop :=
  exists t, ts !! i = Some t /\
    (forall j u, ts !! j = Some u -> distance t q <= distance u q) /\
    (forall j u, ts !! j = Some u -> (j < i)%nat -> distance t q < distance u q).

(** For a query at or beyond an end of the range spanned by [ts], the
    timestamp at [i] is that end of the range. *)
Definition at_closest_endpoint (ts : list Q) (q : Q) (i : nat) : Prop :=
  exists t, ts !! i = Some t /\
    ((forall u, u ∈ ts -> u <= q) -> forall u, u ∈ ts -> u <= t) /\
    ((forall u, u ∈ ts -> q <= u) -> forall u, u ∈ ts -> t <= u).

(** One cell of an array. *)
Inductive cell : Type :=
| CStr (s : string)
| CFloat (f : float64)
| CInt (z : Z).

(** [a[i]]. *)
Definition getcell (a : ndarray) (i : nat) : option cell :=
  match a with
  | UArr _ a => CStr <$> a !! i
  | FloatArr a => CFloat <$> a !! i
  | IntArr a => CInt <$> a !! i
  end.

(** Every column of the table has [n] rows. *)
Definition uniform (n : nat) (tb : Table.t) : Prop :=
  Forall (fun nc => len nc.2 = n) tb.

(** The table after the assignments [tb[n] = c] for [(n, c)] in [l]. *)
Definition build (tb : Table.t) (l : list (string * ndarray)) : Table.t :=
  foldl (fun tb nc => Table.upsert tb nc.1 nc.2) tb l.

(** The text ["varchar(N)"] for a number [N]. *)
Definition marker (n : nat) : string :=
  ("varchar(" +:+ str_int (Z.of_nat n) +:+ ")")%string.

(** [s[k:]]. *)
Fixpoint drop_chars (k : nat) (s : string) : string :=
  match k, s with
  | S k', String _ s' => drop_chars k' s'
  | _, _ => s
  end.

(** The key under which a schema entry is stored. *)
Definition col_key (x : field) : string := strip (colname x).

(** [x] is the last entry of [fields] stored under its key. *)
Definition last_with_key (fields : list field) (x : field) : Prop :=
  exists pre post, fields = pre ++ x :: post /\ col_key x ∉ col_key <$> post.

(** [atype] reads [before ++ "varchar(" ++ ds ++ ")" ++ after] with [ds] a
    non-empty run of digits, and the pattern matches at no earlier
    position: the leftmost marker of [atype] has the digits [ds]. *)
Definition leftmost_marker (atype ds : string) : Prop :=
  exists before after,
    atype = (before +:+ "varchar(" +:+ ds +:+ ")" +:+ after)%string /\
    ds <> EmptyString /\ all_digits ds = true /\
    forall k, (k < String.length before)%nat ->
              rx_match (drop_chars k atype) = None.

(** The storage type an entry's declared type comes to: the dtype name
    the loop builds, resolved by numpy. *)
Definition storage_type {ext : Externals} (atype : string) : result dtype :=
  nm ← storage_name atype;
  match Numpy.dtype_of_name nm with
  | Some dt => Ok dt
  | None => Raise (TypeError_dtype nm)
  end.

(** The cell numpy stores for [v] in an array of type [dt]; unsized
    text keeps the whole string. *)
Definition cell_of {ext : Externals} (dt : dtype) (v : pyval) : result cell :=
  match dt with
  | U 0 => Ok (CStr (Numpy.str v))
  | U w => Ok (CStr (truncate w (Numpy.str v)))
  | Float64 => f ← Numpy.to_float64 v; Ok (CFloat f)
  | Int64 => z ← Numpy.to_int64 v; Ok (CInt z)
  end.

(** The declared type of [x] is recognized. *)
Definition recognized {ext : Externals} (x : field) : Prop :=
  exists dt, storage_type (datatype x) = Ok dt.

(** The values the rows hold for [x] convert to its storage type. *)
Definition convertible {ext : Externals} (data : list (gmap string pyval))
    (x : field) : Prop :=
  forall dt, storage_type (datatype x) = Ok dt ->
    exists a, Numpy.array_of (column_values (col_key x) data) dt = Ok a.

(** The declared type is neither a varchar form, nor ["real"], nor a
    name numpy resolves: it mentions ["varchar"] without a
    parenthesized width, or is some other unknown name. *)
Definition unresolvable {ext : Externals} (atype : string) : Prop :=
  (contains "varchar" atype = true /\ rx_search atype = None) \/
  (contains "varchar" atype = false /\ atype <> "real"%string /\
   Numpy.dtype_of_name atype = None).

(** [nc] is the name and the array that the turn of the loop for [x]
    assigns. *)
Definition assigns {ext : Externals} (data : list (gmap string pyval))
    (x : field) (nc : string * ndarray) : Prop :=
  nc.1 = col_key x /\ new_column data x = Ok nc.2.

End Notions.

(** ** Further notions *)

Section MoreNotions.

(** Timestamps in chronological order, equal neighbours allowed. *)
Definition ascending (ts : list Q) : Prop :=
  forall i j ti tj, (i <= j)%nat -> ts !! i = Some ti -> ts !! j = Some tj ->
                    (ti <= tj)%Q.

(** Timestamps in chronological order, all distinct. *)
Definition strictly_ascending (ts : list Q) : Prop :=
  forall i j ti tj, (i < j)%nat -> ts !! i = Some ti -> ts !! j = Some tj ->
                    (ti < tj)%Q.

(** Every character of [s] is whitespace. *)
Fixpoint all_space (s : string) : bool :=
  match s with
  | EmptyString => true
  | String c s' => is_space c && all_space s'
  end.

(** [s] does not start with whitespace. *)
Definition no_leading_space (s : string) : Prop :=
  match s with
  | EmptyString => True
  | String c _ => is_space c = false
  end.

(** The names of [l] in the order of their first occurrence. *)
Definition first_occurrences (l : list string) : list string :=
  foldl (fun acc n => if decide (n ∈ acc) then acc else acc ++ [n]) [] l.

Definition is_None (v : pyval) : bool :=
  match v with
  | PNone => true
  | _ => false
  end.

(** The record without the keys it maps to [None]. *)
Definition without_nulls (r : gmap string pyval) : gmap string pyval :=
  filter (fun kv => is_None kv.2 = false) r.

End MoreNotions.

(** * Properties *)

(** ** [argmin] returns the first minimum *)

Section Argmin.

#[local] Open Scope Q_scope.

Lemma Qltb_true x y : Np.Qltb x y = true -> x < y.
Proof.
  unfold Np.Qltb. intros H. apply negb_true_iff in H.
  apply Qnot_le_lt. intros Hle. apply Qle_bool_iff in Hle. congruence.
Qed.

Lemma Qltb_false x y : Np.Qltb x y = false -> y <= x.
Proof.
  unfold Np.Qltb. intros H. apply negb_false_iff in H.
  now apply Qle_bool_iff.
Qed.

Lemma first_min_snoc_smaller pre bi b x :
  first_min pre bi -> pre !! bi = Some b -> x < b ->
  first_min (pre ++ [x]) (length pre).
Proof.
  intros (b' & Hb' & Hle & _) Hb Hx. assert (b' = b) as -> by congruence.
  exists x. split; [by rewrite lookup_app_r, Nat.sub_diag by lia|].
  split.
  - intros j y Hj. destruct (decide (j < length pre)%nat) as [Hlt|Hge].
    + rewrite lookup_app_l in Hj by done.
      apply Qlt_le_weak, Qlt_le_trans with b; eauto.
    + rewrite lookup_app_r in Hj by lia.
      destruct (j - length pre)%nat; simpl in Hj; [|done].
      injection Hj as <-. apply Qle_refl.
  - intros j y Hj Hlt. rewrite lookup_app_l in Hj by done.
    apply Qlt_le_trans with b; eauto.
Qed.

Lemma first_min_snoc_keep pre bi b x :
  first_min pre bi -> pre !! bi = Some b -> b <= x ->
  first_min (pre ++ [x]) bi.
Proof.
  intros (b' & Hb' & Hle & Hlt) Hb Hx. assert (b' = b) as -> by congruence.
  exists b. split; [by apply lookup_app_l_Some|].
  split.
  - intros j y Hj. destruct (decide (j < length pre)%nat) as [Hj'|Hj'].
    + rewrite lookup_app_l in Hj by done. eauto.
    + rewrite lookup_app_r in Hj by lia.
      destruct (j - length pre)%nat; simpl in Hj; [|done].
      by injection Hj as <-.
  - intros j y Hj Hji. apply lookup_lt_Some in Hb.
    rewrite lookup_app_l in Hj by lia. eauto.
Qed.

(** The invariant of the scan: [best] at [best_i] is the first minimum
    of what was read, and the scan returns the first minimum of all. *)
Lemma argmin_scan_first_min a : forall pre bi b,
  first_min pre bi -> pre !! bi = Some b ->
  first_min (pre ++ a) (Np.argmin_scan bi b (length pre) a).
Proof.
  induction a as [|x a IH]; intros pre bi b Hmin Hb; simpl.
  - by rewrite app_nil_r.
  - rewrite (cons_middle x pre a), app_assoc.
    replace (S (length pre)) with (length (pre ++ [x]))
      by (rewrite length_app; simpl; lia).
    destruct (Np.Qltb x b) eqn:Hcmp.
    + apply Qltb_true in Hcmp. apply IH.
      * eapply first_min_snoc_smaller; eauto.
      * by rewrite lookup_app_r, Nat.sub_diag by lia.
    + apply Qltb_false in Hcmp. apply IH.
      * eapply first_min_snoc_keep; eauto.
      * by apply lookup_app_l_Some.
Qed.

Lemma argmin_first_min a :
  a <> [] -> exists i, Np.argmin a = Ok i /\ first_min a i.
Proof.
  destruct a as [|x a]; [done|]. intros _.
  exists (Np.argmin_scan 0 x 1 a). split; [done|].
  apply (argmin_scan_first_min a [x] 0%nat x); [|done].
  exists x. split; [done|]. split.
  - intros [|j] y Hj; simpl in Hj; [|done]. injection Hj as <-. apply Qle_refl.
  - intros j y _ Hj. lia.
Qed.

Lemma distances_lookup (ts : list Q) (q : Q) (j : nat) :
  Np.abs (Np.sub_scalar ts q) !! j = (fun t => Qabs (t - q)) <$> ts !! j.
Proof.
  unfold Np.abs, Np.sub_scalar. rewrite !list_lookup_fmap.
  by destruct (ts !! j).
Qed.

End Argmin.

(** ** [find_index] *)

Section FindIndex.

#[local] Open Scope Q_scope.

Lemma nearest_first_of_first_min ts q i :
  first_min (Np.abs (Np.sub_scalar ts q)) i -> nearest_first ts q i.
Proof.
  intros (d & Hd & Hle & Hlt). rewrite distances_lookup in Hd.
  destruct (ts !! i) as [t|] eqn:Ht; [|done]. injection Hd as <-.
  exists t. split; [done|]. split.
  - intros j u Hu. apply (Hle j). by rewrite distances_lookup, Hu.
  - intros j u Hu Hji. apply (Hlt j); [|done].
    by rewrite distances_lookup, Hu.
Qed.

Lemma nearest_is_endpoint ts q i :
  nearest_first ts q i -> at_closest_endpoint ts q i.
Proof.
  intros (t & Ht & Hle & _). exists t. split; [done|].
  assert (t ∈ ts) as Hin by (eapply list_elem_of_lookup_2; eauto).
  split; intros Hall u Hu.
  - apply list_elem_of_lookup_1 in Hu as [j Hj].
    pose proof (Hle j u Hj) as H. unfold distance in H.
    pose proof (Hall t Hin). pose proof (Hall u (list_elem_of_lookup_2 _ _ _ Hj)).
    revert H. apply Qabs_case; apply Qabs_case; intros; lra.
  - apply list_elem_of_lookup_1 in Hu as [j Hj].
    pose proof (Hle j u Hj) as H. unfold distance in H.
    pose proof (Hall t Hin). pose proof (Hall u (list_elem_of_lookup_2 _ _ _ Hj)).
    revert H. apply Qabs_case; apply Qabs_case; intros; lra.
Qed.

Lemma find_index_spec (g : globals) (btjd : Q) :
  TIME (cutout_table g) <> [] ->
  exists i, (find_index btjd g).1 = Ok i /\
    nearest_first (TIME (cutout_table g)) btjd i.
Proof.
  intros Hne. unfold find_index; simpl.
  destruct (argmin_first_min (Np.abs (Np.sub_scalar (TIME (cutout_table g)) btjd)))
    as (i & Hi & Hmin).
  { unfold Np.abs, Np.sub_scalar. intros H.
    apply fmap_nil_inv in H. by apply fmap_nil_inv in H. }
  exists i. split; [done|]. by apply nearest_first_of_first_min.
Qed.

Lemma find_index_lt (g : globals) (btjd : Q) (i : nat) :
  (find_index btjd g).1 = Ok i -> (i < length (TIME (cutout_table g)))%nat.
Proof.
  intros Hi. destruct (TIME (cutout_table g)) as [|t ts] eqn:Hts.
  { unfold find_index in Hi; simpl in Hi. by rewrite Hts in Hi. }
  destruct (find_index_spec g btjd) as (i' & Hi' & (u & Hu & _)).
  { by rewrite Hts. }
  rewrite Hi in Hi'. injection Hi' as <-.
  rewrite Hts in Hu. by apply lookup_lt_Some in Hu.
Qed.



(** C2.  On an empty [TIME] column [find_index] raises, for every
    query: numpy's ValueError for the argmin of an empty sequence, the
    specification's EmptySequenceError. *)
Theorem find_index_empty (g : globals) (btjd : Q) :
  TIME (cutout_table g) = [] ->
  (find_index btjd g).1 = Raise ValueError_argmin_empty /\
  classify ValueError_argmin_empty = EmptySequenceError.
Proof. intros H. unfold find_index; simpl. by rewrite H. Qed.

Lemma find_index_empty_witness :
  TIME (cutout_table (session [])) = [] /\
  (find_index 1334 (session [])).1 = Raise ValueError_argmin_empty /\
  classify ValueError_argmin_empty = EmptySequenceError.
Proof. split; [done|]. by apply (find_index_empty (session []) 1334). Defined.

End FindIndex.

(** ** The frame range handed to [make_animation] *)

Section FrameRange.

#[local] Open Scope Q_scope.

Lemma num_frames_inclusive (n start_frame end_frame : Z) :
  end_frame <> 0%Z ->
  num_frames n start_frame (Some end_frame) = (end_frame - start_frame + 1)%Z.
Proof.
  intros H. unfold num_frames, py_not.
  destruct (Z.eqb_spec end_frame 0); [done|]. reflexivity.
Qed.

Lemma py_getitem_nat {A} (a : list A) (k : nat) :
  py_getitem a (Z.of_nat k) = a !! k.
Proof.
  unfold py_getitem. destruct (Z.ltb_spec (Z.of_nat k) 0); [lia|].
  by rewrite Nat2Z.id.
Qed.

Lemma make_animation_slice {A} (data_array : list A) (i j : nat) :
  (i <= j < length data_array)%nat -> j <> 0%nat ->
  make_animation data_array (Z.of_nat i) (Some (Z.of_nat j))
  = Some <$> take (j - i + 1)%nat (drop i data_array).
Proof.
  intros Hij Hj. unfold make_animation, frames_shown.
  rewrite num_frames_inclusive by lia.
  replace (Z.to_nat (Z.of_nat j - Z.of_nat i + 1)) with (j - i + 1)%nat by lia.
  rewrite <- list_fmap_compose.
  apply list_eq. intros k. rewrite !list_lookup_fmap.
  destruct (decide (k < j - i + 1)%nat) as [Hk|Hk].
  - rewrite lookup_seq_lt by done. simpl.
    rewrite lookup_take_lt, lookup_drop by done.
    replace (Z.of_nat k + Z.of_nat i)%Z with (Z.of_nat (i + k)) by lia.
    rewrite py_getitem_nat.
    destruct (lookup_lt_is_Some_2 data_array (i + k)) as [x ->]; [lia|done].
  - rewrite lookup_seq_ge by lia.
    by rewrite lookup_take_ge by lia.
Qed.

(** C8, the claim as stated fails: on the timestamps
    [1333.0, 1333.5, 1334.0, 1334.5, 1335.0] the query 1334.9 is nearest
    to 1335.0, at index 4, not 3. *)
Lemma frame_range_example_counterexample :
  ~ ((find_index 1333.9 (session [1333.0; 1333.5; 1334.0; 1334.5; 1335.0])).1
       = Ok 2%nat /\
     (find_index 1334.9 (session [1333.0; 1333.5; 1334.0; 1334.5; 1335.0])).1
       = Ok 3%nat).
Proof. intros [_ H]. vm_compute in H. discriminate H. Qed.

(** C8, amended.  Two [find_index] calls give a start and an end index
    that [make_animation] reads as an inclusive range: for an end index
    other than 0 it shows [end - start + 1] frames, the slice from
    [start] to [end] included.  On the timestamps
    [1333.0, 1333.5, 1334.0, 1334.5, 1335.0] the queries 1333.9 and
    1334.9 give 2 and 4, the three-element slice
    [1334.0, 1334.5, 1335.0]. *)
Theorem frame_range_inclusive :
  (find_index 1333.9 (session [1333.0; 1333.5; 1334.0; 1334.5; 1335.0])).1
    = Ok 2%nat /\
  (find_index 1334.9 (session [1333.0; 1333.5; 1334.0; 1334.5; 1335.0])).1
    = Ok 4%nat /\
  make_animation [1333.0; 1333.5; 1334.0; 1334.5; 1335.0] 2%Z (Some 4%Z)
    = [Some 1334.0; Some 1334.5; Some 1335.0] /\
  (forall (g : globals) (q1 q2 : Q) (i j : nat),
      (find_index q1 g).1 = Ok i -> (find_index q2 g).1 = Ok j ->
      length (FLUX (cutout_table g)) = length (TIME (cutout_table g)) ->
      (i <= j)%nat -> j <> 0%nat ->
      num_frames (Z.of_nat (length (FLUX (cutout_table g))))
        (Z.of_nat i) (Some (Z.of_nat j)) = (Z.of_nat j - Z.of_nat i + 1)%Z /\
      make_animation (FLUX (cutout_table g)) (Z.of_nat i) (Some (Z.of_nat j))
      = Some <$> take (j - i + 1)%nat (drop i (FLUX (cutout_table g)))).
Proof.
  split; [by vm_compute|]. split; [by vm_compute|]. split; [by vm_compute|].
  intros g q1 q2 i j Hi Hj Hlen Hij Hj0.
  split; [apply num_frames_inclusive; lia|].
  apply make_animation_slice; [|done]. split; [done|].
  rewrite Hlen.
  destruct (TIME (cutout_table g)) as [|t ts] eqn:Hts.
  { unfold find_index in Hj; simpl in Hj. by rewrite Hts in Hj. }
  rewrite <- Hts. by eapply find_index_lt.
Qed.

End FrameRange.

(** ** The result monad *)

Section Results.

Lemma comprehension_Ok {A B} (f : A -> result B) (l : list A) (ys : list B) :
  comprehension f l = Ok ys <-> Forall2 (fun x y => f x = Ok y) l ys.
Proof.
  revert ys. induction l as [|x l IH]; intros ys; simpl.
  - split; [intros [= <-]; constructor | by inversion 1].
  - split.
    + destruct (f x) as [y|] eqn:Hy; simpl; [|done].
      destruct (comprehension f l) as [ys'|] eqn:Hys; simpl; [|done].
      intros [= <-]. constructor; [done|]. by apply IH.
    + inversion 1 as [|? y ? ys' Hy Hys]; subst. rewrite Hy; simpl.
      apply IH in Hys. by rewrite Hys.
Qed.

Lemma comprehension_length {A B} (f : A -> result B) (l : list A) ys :
  comprehension f l = Ok ys -> length ys = length l.
Proof.
  intros H. apply comprehension_Ok in H. symmetry. by eapply Forall2_length.
Qed.

Lemma comprehension_total {A B} (f : A -> result B) (l : list A) :
  Forall (fun x => exists y, f x = Ok y) l -> exists ys, comprehension f l = Ok ys.
Proof.
  induction 1 as [|x l [y Hy] _ [ys Hys]]; simpl; [by eexists|].
  rewrite Hy, Hys. by eexists.
Qed.

End Results.

(** ** The table *)

Section Tables.

Implicit Types (tb : Table.t) (name : string) (value : ndarray).

Lemma getitem_None tb name :
  Table.getitem tb name = None <-> name ∉ Table.colnames tb.
Proof.
  unfold Table.colnames. induction tb as [|[n c] tb IH]; simpl.
  - split; [intros _; apply not_elem_of_nil | done].
  - destruct (String.eqb_spec n name) as [Heq|Hne].
    + split; [done|]. intros H. exfalso. apply H. rewrite Heq. by left.
    + rewrite IH, not_elem_of_cons. naive_solver.
Qed.

Lemma getitem_replace_column tb name value name' :
  Table.getitem (Table.replace_column tb name value) name'
  = if String.eqb name name'
    then (match Table.getitem tb name with Some _ => Some value | None => None end)
    else Table.getitem tb name'.
Proof.
  induction tb as [|[n c] tb IH]; simpl.
  - by destruct (String.eqb name name').
  - destruct (String.eqb_spec n name) as [->|Hn]; simpl.
    + by destruct (String.eqb_spec name name').
    + destruct (String.eqb_spec n name') as [->|Hn'].
      * by destruct (String.eqb_spec name name') as [->|].
      * apply IH.
Qed.

Lemma getitem_app tb tb' name :
  Table.getitem (tb ++ tb') name
  = match Table.getitem tb name with
    | Some c => Some c
    | None => Table.getitem tb' name
    end.
Proof.
  induction tb as [|[n c] tb IH]; simpl; [done|].
  by destruct (String.eqb n name).
Qed.

Lemma getitem_upsert tb name value name' :
  Table.getitem (Table.upsert tb name value) name'
  = if String.eqb name name' then Some value else Table.getitem tb name'.
Proof.
  unfold Table.upsert. destruct (Table.getitem tb name) as [c|] eqn:Hget.
  - rewrite getitem_replace_column, Hget. done.
  - rewrite getitem_app. simpl.
    destruct (String.eqb_spec name name') as [<-|Hne].
    + by rewrite Hget.
    + by destruct (Table.getitem tb name').
Qed.

Lemma colnames_replace_column tb name value :
  Table.colnames (Table.replace_column tb name value) = Table.colnames tb.
Proof.
  unfold Table.colnames. induction tb as [|[n c] tb IH]; simpl; [done|].
  destruct (String.eqb n name); simpl; [done|]. f_equal. exact IH.
Qed.

Lemma colnames_upsert tb name value :
  Table.colnames (Table.upsert tb name value)
  = if decide (name ∈ Table.colnames tb) then Table.colnames tb
    else Table.colnames tb ++ [name].
Proof.
  unfold Table.upsert. destruct (Table.getitem tb name) as [c|] eqn:Hget.
  - rewrite colnames_replace_column. case_decide as Hin; [done|].
    apply getitem_None in Hin. congruence.
  - apply getitem_None in Hget. case_decide; [done|].
    unfold Table.colnames. by rewrite fmap_app.
Qed.

Lemma uniform_replace_column n tb name value :
  uniform n tb -> len value = n ->
  uniform n (Table.replace_column tb name value).
Proof.
  unfold uniform. intros Htb Hv.
  induction Htb as [|[m c] tb Hc Htb IH]; simpl; [constructor|].
  destruct (String.eqb m name); constructor; done.
Qed.

Lemma uniform_upsert n tb name value :
  uniform n tb -> len value = n -> uniform n (Table.upsert tb name value).
Proof.
  intros Htb Hv. unfold Table.upsert. destruct (Table.getitem tb name).
  - by apply uniform_replace_column.
  - apply Forall_app. split; [done|]. by constructor.
Qed.

(** Columns of equal length are never refused. *)
Lemma setitem_uniform n tb name value :
  uniform n tb -> len value = n ->
  Table.setitem tb name value = Ok (Table.upsert tb name value).
Proof.
  intros Htb Hv. unfold Table.setitem.
  replace (Table.fits tb name value) with true; [done|].
  symmetry. unfold Table.fits. apply forallb_forall.
  intros [m c] Hin. apply list_elem_of_In in Hin.
  unfold uniform in Htb. rewrite Forall_forall in Htb.
  apply Htb in Hin. simpl in *. apply orb_true_iff. right.
  apply Nat.eqb_eq. congruence.
Qed.

Lemma uniform_build n l : forall tb,
  uniform n tb -> Forall (fun nc => len nc.2 = n) l -> uniform n (build tb l).
Proof.
  induction l as [|[m c] l IH]; intros tb Htb Hl; simpl; [done|].
  inversion Hl; subst. apply IH; [|done]. by apply uniform_upsert.
Qed.

(** The last assignment to a name is the one read back. *)
Lemma getitem_build_other l : forall tb name,
  name ∉ l.*1 -> Table.getitem (build tb l) name = Table.getitem tb name.
Proof.
  induction l as [|[m c] l IH]; intros tb name Hnot; simpl; [done|].
  rewrite fmap_cons, not_elem_of_cons in Hnot. destruct Hnot as [Hne Hnot].
  unfold build in *. simpl. rewrite IH by done.
  rewrite getitem_upsert.
  destruct (String.eqb_spec m name); [by subst|done].
Qed.

Lemma getitem_build_last tb l1 name value l2 :
  name ∉ l2.*1 ->
  Table.getitem (build tb (l1 ++ (name, value) :: l2)) name = Some value.
Proof.
  intros Hnot. unfold build. rewrite foldl_app. simpl.
  fold (build (Table.upsert (foldl (fun tb nc => Table.upsert tb nc.1 nc.2) tb l1)
                 name value) l2).
  rewrite getitem_build_other by done.
  by rewrite getitem_upsert, String.eqb_refl.
Qed.

Lemma colnames_build l : forall tb,
  NoDup (Table.colnames tb) ->
  NoDup (Table.colnames (build tb l)) /\
  (forall name, name ∈ Table.colnames (build tb l)
                <-> name ∈ Table.colnames tb \/ name ∈ l.*1).
Proof.
  induction l as [|[m c] l IH]; intros tb Hnd; simpl.
  - split; [done|]. intros name. rewrite elem_of_nil. naive_solver.
  - destruct (IH (Table.upsert tb m c)) as [Hnd' Hin].
    { rewrite colnames_upsert. case_decide as Hm; [done|].
      apply NoDup_app. split; [done|]. split.
      - intros x Hx Hx'. apply list_elem_of_singleton in Hx'. by subst.
      - apply NoDup_singleton. }
    split; [done|]. intros name. unfold build in *. simpl. rewrite Hin.
    rewrite colnames_upsert, elem_of_cons.
    case_decide as Hm.
    + split; [naive_solver|]. intros [H|[->|H]]; auto.
    + rewrite elem_of_app, list_elem_of_singleton. naive_solver.
Qed.

(** With distinct new names the columns are appended in order. *)
Lemma colnames_build_NoDup l : forall tb,
  NoDup (Table.colnames tb ++ l.*1) ->
  Table.colnames (build tb l) = Table.colnames tb ++ l.*1.
Proof.
  induction l as [|[m c] l IH]; intros tb Hnd; simpl.
  - by rewrite app_nil_r.
  - unfold build in *. simpl. rewrite IH.
    + rewrite colnames_upsert. case_decide as Hm.
      * apply NoDup_app in Hnd as (_ & Hdisj & _).
        exfalso. apply (Hdisj m Hm). by left.
      * by rewrite <- app_assoc.
    + rewrite colnames_upsert. case_decide as Hm.
      * apply NoDup_app in Hnd as (_ & Hdisj & _).
        exfalso. apply (Hdisj m Hm). by left.
      * by rewrite <- app_assoc.
Qed.

End Tables.

(** ** Text *)

Section TextLemmas.

#[local] Open Scope string_scope.

Lemma strip_prefix_app p s : strip_prefix p (p ++ s) = Some s.
Proof.
  induction p as [|a p IH]; simpl; [by destruct s|].
  by rewrite Ascii.eqb_refl.
Qed.

Lemma strip_prefix_Some p s r : strip_prefix p s = Some r -> s = p ++ r.
Proof.
  revert s. induction p as [|a p IH]; intros s; simpl.
  - by intros [= ->].
  - destruct s as [|b s]; [done|].
    destruct (Ascii.eqb_spec a b) as [->|]; [|done].
    intros H. by rewrite (IH _ H).
Qed.

Lemma contains_app_r needle before rest :
  contains needle rest = true -> contains needle (before ++ rest) = true.
Proof.
  intros H. induction before as [|c before IH]; simpl; [done|].
  rewrite IH. apply orb_true_r.
Qed.

Lemma prefix_app p s : String.prefix p (p ++ s) = true.
Proof.
  induction p as [|a p IH]; simpl; [by destruct s|].
  destruct (ascii_dec a a); [done|congruence].
Qed.

Lemma contains_of_prefix needle hay :
  String.prefix needle hay = true -> contains needle hay = true.
Proof. destruct hay; simpl; by intros ->. Qed.

Lemma contains_prefix needle rest : contains needle (needle ++ rest) = true.
Proof. apply contains_of_prefix, prefix_app. Qed.

Lemma span_digits_all s ds rest :
  span_digits s = (ds, rest) -> all_digits ds = true /\ s = ds ++ rest.
Proof.
  revert ds rest. induction s as [|c s IH]; intros ds rest; simpl.
  - by intros [= <- <-].
  - destruct (is_digit c) eqn:Hc.
    + destruct (span_digits s) as [ds' rest'].
      intros [= <- <-]. destruct (IH _ _ eq_refl) as [Hall ->].
      simpl. by rewrite Hc, Hall.
    + by intros [= <- <-].
Qed.

Lemma span_digits_app ds c rest :
  all_digits ds = true -> is_digit c = false ->
  span_digits (ds ++ String c rest) = (ds, String c rest).
Proof.
  intros Hall Hc. induction ds as [|d ds IH]; simpl.
  - by rewrite Hc.
  - simpl in Hall. apply andb_true_iff in Hall as [Hd Hall].
    by rewrite Hd, IH.
Qed.

(** The pattern at the start of a marker captures its digits. *)
Lemma rx_match_marker ds after :
  ds <> EmptyString -> all_digits ds = true ->
  rx_match ("varchar(" ++ ds ++ ")" ++ after) = Some ds.
Proof.
  intros Hne Hall. unfold rx_match.
  rewrite (strip_prefix_app "varchar(" (ds ++ ")" ++ after)).
  change (")" ++ after) with (String ")" after).
  rewrite span_digits_app by done.
  by destruct ds.
Qed.

(** What a match captures is a non-empty run of digits that follows
    ["varchar("]. *)
Lemma rx_match_Some s ds :
  rx_match s = Some ds ->
  ds <> EmptyString /\ all_digits ds = true /\
  exists after, s = "varchar(" ++ ds ++ ")" ++ after.
Proof.
  unfold rx_match. destruct (strip_prefix "varchar(" s) as [rest|] eqn:Hp; [|done].
  apply strip_prefix_Some in Hp.
  destruct (span_digits rest) as [ds' rest'] eqn:Hspan.
  apply span_digits_all in Hspan as [Hall ->].
  destruct ds' as [|d ds']; [done|]. destruct rest' as [|c rest']; [done|].
  destruct (Ascii.eqb_spec c ")") as [->|]; [|done].
  intros [= <-]. split; [done|]. split; [done|]. by exists rest'.
Qed.

Lemma rx_search_Some s ds :
  rx_search s = Some ds ->
  ds <> EmptyString /\ all_digits ds = true /\ contains "varchar" s = true.
Proof.
  induction s as [|c s IH].
  - done.
  - cbn [rx_search]. destruct (rx_match (String c s)) as [g|] eqn:E.
    + intros [= ->]. apply rx_match_Some in E as (Hne & Hall & after & E).
      split; [done|]. split; [done|]. rewrite E.
      apply (contains_prefix "varchar" ("(" ++ ds ++ ")" ++ after)).
    + intros H. destruct (IH H) as (Hne & Hall & Hc).
      split; [done|]. split; [done|].
      cbn [contains]. rewrite Hc. apply orb_true_r.
Qed.

Lemma rx_search_of_match s g : rx_match s = Some g -> rx_search s = Some g.
Proof.
  intros H. destruct s as [|c s]; [done|]. cbn [rx_search]. by rewrite H.
Qed.

Lemma rx_search_leftmost atype ds :
  leftmost_marker atype ds -> rx_search atype = Some ds.
Proof.
  intros (before & after & -> & Hne & Hall & Hno).
  induction before as [|c before IH].
  - change (EmptyString +:+ "varchar(" +:+ ds +:+ ")" +:+ after)
      with ("varchar(" ++ ds ++ ")" ++ after).
    apply rx_search_of_match. by apply rx_match_marker.
  - change (String c before +:+ "varchar(" +:+ ds +:+ ")" +:+ after)
      with (String c (before +:+ "varchar(" +:+ ds +:+ ")" +:+ after)).
    cbn [rx_search].
    assert (H0 := Hno 0%nat ltac:(simpl; lia)). cbn [drop_chars] in H0.
    change (String c before +:+ "varchar(" +:+ ds +:+ ")" +:+ after)
      with (String c (before +:+ "varchar(" +:+ ds +:+ ")" +:+ after)) in H0.
    rewrite H0.
    apply IH. intros k Hk. apply (Hno (S k)). simpl. lia.
Qed.

Lemma length_truncate n s : String.length (truncate n s) = min n (String.length s).
Proof.
  revert s. induction n as [|n IH]; intros [|c s]; simpl; try done.
  by rewrite IH.
Qed.

Lemma truncate_ge n s : (String.length s <= n)%nat -> truncate n s = s.
Proof.
  revert s. induction n as [|n IH]; intros [|c s]; simpl; try done; try lia.
  intros H. rewrite IH; [done|lia].
Qed.

End TextLemmas.

(** ** Storage types and arrays *)

Section Arrays.

Context {ext : Externals}.

Lemma storage_name_real : storage_name "real" = Ok "float"%string.
Proof. reflexivity. Qed.

Lemma storage_name_varchar atype ds :
  rx_search atype = Some ds -> storage_name atype = Ok (String "U" ds).
Proof.
  intros H. unfold storage_name.
  destruct (rx_search_Some _ _ H) as (_ & _ & ->). by rewrite H.
Qed.

Lemma dtype_of_name_U ds :
  all_digits ds = true ->
  Numpy.dtype_of_name (String "U" ds) = Some (U (decimal_value ds)).
Proof. intros H. unfold Numpy.dtype_of_name. simpl. by rewrite H. Qed.

Lemma array_of_len values dt a :
  Numpy.array_of values dt = Ok a -> len a = length values.
Proof.
  destruct dt as [[|w]| |]; simpl.
  - intros [= <-]. simpl. by rewrite length_fmap.
  - intros [= <-]. simpl. by rewrite length_fmap.
  - destruct (comprehension Numpy.to_float64 values) as [fs|] eqn:E; [|done].
    intros [= <-]. simpl. by eapply comprehension_length.
  - destruct (comprehension Numpy.to_int64 values) as [zs|] eqn:E; [|done].
    intros [= <-]. simpl. by eapply comprehension_length.
Qed.

Lemma array_of_nil dt : exists a, Numpy.array_of [] dt = Ok a.
Proof. destruct dt as [[|w]| |]; simpl; by eexists. Qed.

Lemma length_column_values col data :
  length (column_values col data) = length data.
Proof. unfold column_values. by rewrite length_fmap. Qed.

Lemma column_values_lookup col data i row :
  data !! i = Some row ->
  column_values col data !! i = Some (default PNone (row !! col)).
Proof. intros H. unfold column_values. by rewrite list_lookup_fmap, H. Qed.

Lemma new_column_len data x c :
  new_column data x = Ok c -> len c = length data.
Proof.
  unfold new_column. destruct (storage_name (datatype x)) as [nm|]; [|done].
  simpl. unfold Numpy.array. destruct (Numpy.dtype_of_name nm); [|done].
  intros H. apply array_of_len in H. by rewrite length_column_values in H.
Qed.

(** The column of a ["real"] entry. *)
Lemma new_column_real data x :
  datatype x = "real"%string ->
  new_column data x
  = (a ← comprehension Numpy.to_float64 (column_values (col_key x) data);
     Ok (FloatArr a)).
Proof. intros H. unfold new_column. rewrite H. reflexivity. Qed.

(** The column of an entry whose type matches the pattern with a
    positive width. *)
Lemma new_column_varchar data x ds :
  rx_search (datatype x) = Some ds -> (0 < decimal_value ds)%nat ->
  new_column data x
  = Ok (UArr (decimal_value ds)
          ((fun v => truncate (decimal_value ds) (Numpy.str v))
             <$> column_values (col_key x) data)).
Proof.
  intros H Hpos. unfold new_column.
  rewrite (storage_name_varchar _ _ H). simpl.
  unfold Numpy.array.
  destruct (rx_search_Some _ _ H) as (_ & Hall & _).
  rewrite (dtype_of_name_U _ Hall).
  destruct (decimal_value ds); [lia|done].
Qed.

End Arrays.

(** ** The loop of [json_to_table] *)

Section Loop.

Context {ext : Externals}.
Variable data : list (gmap string pyval).

Lemma assigns_len fields l :
  Forall2 (assigns data) fields l -> Forall (fun nc => len nc.2 = length data) l.
Proof.
  induction 1 as [|x nc fields l [_ Hc] _ IH]; constructor; [|done].
  by eapply new_column_len.
Qed.

Lemma assigns_names fields l :
  Forall2 (assigns data) fields l -> l.*1 = col_key <$> fields.
Proof.
  induction 1 as [|x nc fields l [Hn _] _ IH]; [done|].
  by rewrite !fmap_cons, Hn, IH.
Qed.

Lemma assigns_total fields :
  Forall (fun x => exists c, new_column data x = Ok c) fields ->
  exists l, Forall2 (assigns data) fields l.
Proof.
  induction 1 as [|x fields [c Hc] _ [l Hl]]; [by exists []|].
  exists ((col_key x, c) :: l). by constructor.
Qed.

Lemma loop_ok fields : forall tb l,
  uniform (length data) tb -> Forall2 (assigns data) fields l ->
  for_each (add_field data) fields tb = Ok (build tb l).
Proof.
  induction fields as [|x fields IH]; intros tb l Htb Hl.
  - by inversion Hl.
  - inversion Hl as [|? [n c] ? l' [Hn Hc] Hl']; subst. simpl in *.
    unfold add_field at 1. rewrite Hc. simpl.
    rewrite (setitem_uniform (length data)); [|done|by eapply new_column_len].
    simpl. rewrite (IH _ l'); [by subst| |done].
    apply uniform_upsert; [done|]. by eapply new_column_len.
Qed.

Lemma loop_inv fields : forall tb tb',
  uniform (length data) tb ->
  for_each (add_field data) fields tb = Ok tb' ->
  exists l, Forall2 (assigns data) fields l /\ tb' = build tb l.
Proof.
  induction fields as [|x fields IH]; intros tb tb' Htb; simpl.
  - intros [= <-]. exists []. by split; [constructor|].
  - unfold add_field at 1.
    destruct (new_column data x) as [c|] eqn:Hc; [|done]. simpl.
    rewrite (setitem_uniform (length data)); [|done|by eapply new_column_len].
    simpl. intros H. apply IH in H as (l & Hl & ->).
    + exists ((col_key x, c) :: l). split; [by constructor|done].
    + apply uniform_upsert; [done|]. by eapply new_column_len.
Qed.

(** The loop stops at the first entry whose column cannot be built. *)
Lemma loop_raise pre x post e : forall tb,
  uniform (length data) tb ->
  Forall (fun y => exists c, new_column data y = Ok c) pre ->
  new_column data x = Raise e ->
  for_each (add_field data) (pre ++ x :: post) tb = Raise e.
Proof.
  induction pre as [|y pre IH]; intros tb Htb Hpre Hx; simpl.
  - unfold add_field. by rewrite Hx.
  - inversion Hpre as [|? ? [c Hc] Hpre']; subst.
    unfold add_field at 1. rewrite Hc. simpl.
    rewrite (setitem_uniform (length data)); [|done|by eapply new_column_len].
    simpl. apply IH; [|done|done].
    apply uniform_upsert; [done|]. by eapply new_column_len.
Qed.

(** An entry whose column cannot be built makes the loop fail. *)
Lemma loop_fails fields x e : forall tb,
  x ∈ fields -> new_column data x = Raise e ->
  exists e', for_each (add_field data) fields tb = Raise e'.
Proof.
  induction fields as [|y fields IH]; intros tb Hin Hx.
  - by apply elem_of_nil in Hin.
  - simpl. destruct (add_field data y tb) as [tb'|e'] eqn:Hy; simpl.
    + apply elem_of_cons in Hin as [->|Hin].
      * unfold add_field in Hy. by rewrite Hx in Hy.
      * by apply IH.
    + by exists e'.
Qed.

Lemma uniform_nil : uniform (length data) [].
Proof. constructor. Qed.

End Loop.

(** ** Columns, cell by cell *)

Section Columns.

Context {ext : Externals}.
Implicit Types (data : list (gmap string pyval)) (x : field).

Lemma new_column_storage data x :
  new_column data x
  = (dt ← storage_type (datatype x);
     Numpy.array_of (column_values (col_key x) data) dt).
Proof.
  unfold new_column, storage_type, Numpy.array.
  destruct (storage_name (datatype x)) as [nm|]; [|done]. simpl.
  by destruct (Numpy.dtype_of_name nm).
Qed.

Lemma builds data x :
  recognized x -> convertible data x -> exists c, new_column data x = Ok c.
Proof.
  intros [dt Hdt] Hconv. rewrite new_column_storage, Hdt. simpl.
  by apply Hconv.
Qed.

Lemma recognized_nil x : recognized x -> convertible [] x.
Proof. intros _ dt _. apply array_of_nil. Qed.

Lemma storage_type_real : storage_type "real" = Ok Float64.
Proof. reflexivity. Qed.

Lemma storage_type_varchar atype ds :
  rx_search atype = Some ds -> storage_type atype = Ok (U (decimal_value ds)).
Proof.
  intros H. unfold storage_type. rewrite (storage_name_varchar _ _ H). simpl.
  destruct (rx_search_Some _ _ H) as (_ & Hall & _).
  by rewrite (dtype_of_name_U _ Hall).
Qed.

Lemma storage_type_unresolvable atype :
  unresolvable atype ->
  exists e, storage_type atype = Raise e /\ classify e = TypeMappingError.
Proof.
  unfold storage_type, storage_name.
  intros [[-> ->]|(-> & Hreal & Hnone)]; simpl.
  - by eexists.
  - destruct (String.eqb_spec atype "real") as [|_]; [done|].
    rewrite Hnone. by eexists.
Qed.

Lemma storage_type_Raise atype e :
  storage_type atype = Raise e -> classify e = TypeMappingError.
Proof.
  unfold storage_type. destruct (storage_name atype) as [nm|e'] eqn:Hnm; simpl.
  - destruct (Numpy.dtype_of_name nm); [done|]. by intros [= <-].
  - intros [= <-]. unfold storage_name in Hnm.
    destruct (contains "varchar" atype); [|done].
    destruct (rx_search atype); [done|]. simpl in Hnm. by injection Hnm as <-.
Qed.

(** An array holds, at each position, the cell of the value there. *)
Lemma array_of_cell values dt a i v :
  Numpy.array_of values dt = Ok a -> values !! i = Some v ->
  exists cl, cell_of dt v = Ok cl /\ getcell a i = Some cl.
Proof.
  intros Ha Hv. destruct dt as [[|w]| |]; simpl in *.
  - injection Ha as <-. eexists. split; [done|]. simpl.
    by rewrite list_lookup_fmap, Hv.
  - injection Ha as <-. eexists. split; [done|]. simpl.
    by rewrite list_lookup_fmap, Hv.
  - destruct (comprehension Numpy.to_float64 values) as [fs|] eqn:E; [|done].
    injection Ha as <-. apply comprehension_Ok in E.
    destruct (Forall2_lookup_l _ _ _ _ _ E Hv) as (f & Hf & Hc).
    exists (CFloat f). rewrite Hc. simpl. by rewrite Hf.
  - destruct (comprehension Numpy.to_int64 values) as [zs|] eqn:E; [|done].
    injection Ha as <-. apply comprehension_Ok in E.
    destruct (Forall2_lookup_l _ _ _ _ _ E Hv) as (z & Hz & Hc).
    exists (CInt z). rewrite Hc. simpl. by rewrite Hz.
Qed.

Lemma array_of_dtype values w a :
  (0 < w)%nat -> Numpy.array_of values (U w) = Ok a -> dtype_of a = U w.
Proof. destruct w; [lia|]. intros _ [= <-]. done. Qed.

(** The column of an entry, cell by cell: row [i] of the column comes
    from row [i] of the data, [None] standing for a missing key. *)
Lemma new_column_cell data x c dt i row :
  new_column data x = Ok c -> storage_type (datatype x) = Ok dt ->
  data !! i = Some row ->
  exists cl, cell_of dt (default PNone (row !! col_key x)) = Ok cl /\
             getcell c i = Some cl.
Proof.
  rewrite new_column_storage. intros Hc Hdt Hrow. rewrite Hdt in Hc.
  simpl in Hc. eapply array_of_cell; [done|].
  by apply column_values_lookup.
Qed.

(** What the table holds under the key of an entry that is the last
    one with that key. *)
Lemma json_to_table_getitem fields data tb x :
  json_to_table fields data = Ok tb -> last_with_key fields x ->
  exists c, new_column data x = Ok c /\ Table.getitem tb (col_key x) = Some c.
Proof.
  intros Htb (pre & post & -> & Hlast). unfold json_to_table in Htb.
  apply loop_inv in Htb as (l & Hl & ->); [|apply uniform_nil].
  apply Forall2_app_inv_l in Hl as (l1 & l2' & Hl1 & Hl2 & ->).
  inversion Hl2 as [|? [n c] ? l2 [Hn Hc] Hl2']; subst. simpl in *. subst n.
  exists c. split; [done|]. apply getitem_build_last.
  by rewrite (assigns_names _ _ _ Hl2').
Qed.

Lemma json_to_table_ok fields data :
  Forall (fun x => exists c, new_column data x = Ok c) fields ->
  exists l, Forall2 (assigns data) fields l /\
            json_to_table fields data = Ok (build [] l).
Proof.
  intros H. destruct (assigns_total _ _ H) as [l Hl]. exists l.
  split; [done|]. apply loop_ok; [apply uniform_nil|done].
Qed.

End Columns.

(** ** [json_to_table]: widths, fill values, failures *)

Section Coerce.

Context {ext : Externals}.
Implicit Types (data : list (gmap string pyval)) (x : field).


(** C9.  The fill value of a missing key is what numpy makes of [None]
    in the column's storage type: NaN in the column of a ["real"]
    entry, the text ["None"] cut to [N] characters in the column of a
    ["varchar(N)"] entry with positive [N], which is ["None"] itself
    from [N = 4] on and a shorter prefix below. *)
Theorem missing_key_fill_values fields data tb x :
  json_to_table fields data = Ok tb ->
  last_with_key fields x ->
  (datatype x = "real"%string ->
   exists c, Table.getitem tb (col_key x) = Some c /\
     dtype_of c = Float64 /\
     forall i row, data !! i = Some row -> row !! col_key x = None ->
                   getcell c i = Some (CFloat NaN)) /\
  (forall ds, leftmost_marker (datatype x) ds -> (0 < decimal_value ds)%nat ->
   exists c, Table.getitem tb (col_key x) = Some c /\
     dtype_of c = U (decimal_value ds) /\
     forall i row, data !! i = Some row -> row !! col_key x = None ->
                   getcell c i
                   = Some (CStr (truncate (decimal_value ds) "None"))) /\
  (forall n, (4 <= n)%nat -> truncate n "None" = "None"%string) /\
  (forall n, (n < 4)%nat -> String.length (truncate n "None") = n).
Proof.
  intros Htb Hlast.
  destruct (json_to_table_getitem _ _ _ _ Htb Hlast) as (c & Hc & Hget).
  split; [|split; [|split]].
  - intros Hreal. exists c. split; [done|].
    pose proof Hc as Hc'. rewrite new_column_real in Hc' by done.
    destruct (comprehension _ _) as [fs|]; [|done]. injection Hc' as <-.
    split; [done|]. intros i row Hrow Hnone.
    destruct (new_column_cell data x (FloatArr fs) Float64 i row)
      as (cl & Hcl & Hcell); [done|by rewrite Hreal|done|].
    rewrite Hnone in Hcl. simpl in Hcl. by injection Hcl as <-.
  - intros ds Hm Hpos. exists c. split; [done|].
    apply rx_search_leftmost in Hm.
    pose proof Hc as Hc'. rewrite (new_column_varchar _ _ ds) in Hc' by done.
    injection Hc' as <-. split; [done|]. intros i row Hrow Hnone. simpl.
    rewrite list_lookup_fmap, (column_values_lookup _ _ _ _ Hrow), Hnone.
    done.
  - intros n Hn. apply truncate_ge. simpl. lia.
  - intros n Hn. rewrite length_truncate. simpl. lia.
Qed.


(** C7, amended.  A schema entry whose declared type is unresolvable
    makes [json_to_table] fail, whatever the rows: no table is
    returned.  When the columns of the entries before it can be built,
    the exception is the one of that entry, a TypeMappingError
    (AttributeError for a ["varchar"] without a parenthesized width,
    TypeError for a name numpy does not know); otherwise the call has
    already failed at an earlier entry. *)
Theorem unresolvable_type_fails pre x post data :
  unresolvable (datatype x) ->
  (exists e, json_to_table (pre ++ x :: post) data = Raise e) /\
  (Forall (fun y => recognized y /\ convertible data y) pre ->
   exists e, json_to_table (pre ++ x :: post) data = Raise e /\
             storage_type (datatype x) = Raise e /\
             classify e = TypeMappingError).
Proof.
  intros Hbad.
  destruct (storage_type_unresolvable _ Hbad) as (e & He & Hclass).
  assert (new_column data x = Raise e) as Hx
      by (by rewrite new_column_storage, He).
  split.
  - eapply loop_fails; [|exact Hx]. apply elem_of_app. right. by left.
  - intros Hpre. exists e. split; [|done].
    apply loop_raise; [apply uniform_nil| |done].
    eapply Forall_impl; [exact Hpre|]. intros y [? ?]. by apply builds.
Qed.

End Coerce.

(** ** [json_to_table]: missing keys, duplicate names, purity *)

Section MissingAndDuplicates.

Context {ext : Externals}.
Implicit Types (data : list (gmap string pyval)) (x : field).

Lemma cell_of_None dt : dt <> Int64 -> exists fill, cell_of dt PNone = Ok fill.
Proof. destruct dt as [[|w]| |]; simpl; intros H; by eauto. Qed.

Lemma array_of_total values dt :
  Forall (fun v => exists cl, cell_of dt v = Ok cl) values ->
  exists a, Numpy.array_of values dt = Ok a.
Proof.
  intros H. destruct dt as [[|w]| |]; simpl; try by eexists.
  - destruct (comprehension_total Numpy.to_float64 values) as [fs ->];
      [|by eexists].
    eapply Forall_impl; [exact H|]. intros v [cl Hcl]. simpl in Hcl.
    destruct (Numpy.to_float64 v); [by eexists|done].
  - destruct (comprehension_total Numpy.to_int64 values) as [zs ->];
      [|by eexists].
    eapply Forall_impl; [exact H|]. intros v [cl Hcl]. simpl in Hcl.
    destruct (Numpy.to_int64 v); [by eexists|done].
Qed.


Lemma duplicate_not_NoDup {A} (l : list A) (i j : nat) (a : A) :
  (i < j)%nat -> l !! i = Some a -> l !! j = Some a -> ~ NoDup l.
Proof.
  intros Hij Hi Hj Hnd. rewrite NoDup_alt in Hnd.
  specialize (Hnd i j a Hi Hj). lia.
Qed.

Lemma fewer_distinct {A} `{EqDecision A} (l k : list A) :
  NoDup l -> (forall a, a ∈ l -> a ∈ k) -> ~ NoDup k ->
  (length l < length k)%nat.
Proof.
  intros Hnd Hsub Hdup.
  pose proof (NoDup_submseteq l k Hnd Hsub) as Hsm.
  pose proof (submseteq_length _ _ Hsm) as Hle.
  destruct (decide (length l = length k)) as [Heq|]; [|lia].
  exfalso. apply Hdup.
  assert (l ≡ₚ k) as Hperm by (apply submseteq_length_Permutation; [done|lia]).
  by rewrite <- Hperm.
Qed.


End MissingAndDuplicates.

(** ** Purity *)

Section Purity.

Context {ext : Externals}.

Lemma for_each_ext {A S} (f g : A -> S -> result S) (l : list A) :
  (forall a, a ∈ l -> forall s, f a s = g a s) ->
  forall s, for_each f l s = for_each g l s.
Proof.
  induction l as [|a l IH]; intros Hfg s; simpl; [done|].
  rewrite (Hfg a) by (by left).
  destruct (g a s) as [s'|]; simpl; [|done].
  apply IH. intros b Hb. apply Hfg. by right.
Qed.

Lemma column_values_agree col (data data' : list (gmap string pyval)) :
  Forall2 (fun r r' => r !! col = r' !! col) data data' ->
  column_values col data = column_values col data'.
Proof.
  unfold column_values. induction 1 as [|r r' data data' Hr _ IH]; [done|].
  by rewrite !fmap_cons, Hr, IH.
Qed.


End Purity.

(** ** The properties on concrete inputs *)

Section Concrete.

#[local] Open Scope string_scope.

Lemma leftmost_marker_whole ds :
  ds <> EmptyString -> all_digits ds = true ->
  leftmost_marker ("varchar(" +:+ ds +:+ ")") ds.
Proof.
  intros Hne Hall. exists EmptyString, EmptyString.
  split; [|split; [done|split; [done|]]].
  - reflexivity.
  - simpl. intros k Hk. lia.
Qed.

(** The light curve as a table: the name is stripped, the text cut to
    three characters, missing keys filled. *)
Example light_curve_example :
  json_to_table light_curve_fields light_curve_rows = Ok light_curve_table.
Proof. by vm_compute. Qed.

(** ["varchar(12)"] gives a text column of width 12. *)
Example varchar_12_example :
  json_to_table [entry "TARGET" "varchar(12)"]
    [ {[ "TARGET" := PStr "TOI-1234.01 b" ]}; ∅ ]
  = Ok [("TARGET", UArr 12 ["TOI-1234.01 "; "None"])].
Proof. by vm_compute. Qed.

Lemma last_with_key_target : last_with_key light_curve_fields target_entry.
Proof.
  exists [time_entry], []. split; [done|]. apply not_elem_of_nil.
Qed.

Lemma last_with_key_time : last_with_key light_curve_fields time_entry.
Proof.
  exists [], [target_entry]. split; [done|].
  vm_compute. intros H. apply list_elem_of_singleton in H. discriminate H.
Qed.

Lemma light_curve_recognized :
  Forall (fun y => recognized y /\ convertible light_curve_rows y)
    light_curve_fields.
Proof.
  repeat constructor; try (by eexists);
    intros dt H; vm_compute in H; injection H as <-; by eexists.
Qed.



Lemma missing_key_fill_values_witness :
  json_to_table light_curve_fields light_curve_rows = Ok light_curve_table /\
  last_with_key light_curve_fields time_entry /\
  datatype time_entry = "real" /\
  exists c, Table.getitem light_curve_table (col_key time_entry) = Some c /\
    dtype_of c = Float64 /\
    forall i row, light_curve_rows !! i = Some row ->
                  row !! col_key time_entry = None ->
                  getcell c i = Some (CFloat NaN).
Proof.
  assert (json_to_table light_curve_fields light_curve_rows
          = Ok light_curve_table) as H1 by (vm_compute; reflexivity).
  split; [exact H1|]. split; [exact last_with_key_time|].
  split; [reflexivity|].
  exact (proj1 (missing_key_fill_values light_curve_fields light_curve_rows
                  light_curve_table time_entry H1 last_with_key_time)
           eq_refl).
Defined.

Lemma NoDup_light_curve_keys : NoDup (col_key <$> light_curve_fields).
Proof.
  vm_compute. apply NoDup_cons. split.
  - intros H. apply list_elem_of_singleton in H. discriminate H.
  - apply NoDup_singleton.
Qed.





Lemma unresolvable_type_fails_witness :
  unresolvable (datatype (entry "FLAG" "varchar")) /\
  (exists e, json_to_table
               (light_curve_fields ++ entry "FLAG" "varchar" :: [])
               light_curve_rows = Raise e) /\
  (Forall (fun y => recognized y /\ convertible light_curve_rows y)
     light_curve_fields ->
   exists e, json_to_table
               (light_curve_fields ++ entry "FLAG" "varchar" :: [])
               light_curve_rows = Raise e /\
             storage_type (datatype (entry "FLAG" "varchar")) = Raise e /\
             classify e = TypeMappingError).
Proof.
  assert (unresolvable (datatype (entry "FLAG" "varchar"))) as H
      by (left; split; reflexivity).
  split; [exact H|].
  exact (unresolvable_type_fails light_curve_fields (entry "FLAG" "varchar")
           [] light_curve_rows H).
Defined.

(** C7, the claim as stated fails: with an unresolvable type in the
    schema the call fails, yet not always with a TypeMappingError.  An
    earlier ["real"] column whose value does not read as a number
    raises first. *)
Lemma unresolvable_type_counterexample :
  unresolvable (datatype (entry "FLAG" "bogus")) /\
  json_to_table [entry "PHASE" "real"; entry "FLAG" "bogus"]
    [ {[ "PHASE" := PStr "n/a" ]} ] = Raise (ValueError_float "n/a") /\
  classify (ValueError_float "n/a") <> TypeMappingError.
Proof.
  split; [|split].
  - right. split; [reflexivity|]. split; [discriminate|reflexivity].
  - by vm_compute.
  - discriminate.
Qed.


Lemma frame_range_inclusive_witness :
  (find_index 1333.9 five_frames).1 = Ok 2%nat /\
  (find_index 1334.9 five_frames).1 = Ok 4%nat /\
  length (FLUX (cutout_table five_frames))
  = length (TIME (cutout_table five_frames)) /\
  (2 <= 4)%nat /\ 4%nat <> 0%nat /\
  num_frames (Z.of_nat (length (FLUX (cutout_table five_frames))))
    (Z.of_nat 2) (Some (Z.of_nat 4)) = (Z.of_nat 4 - Z.of_nat 2 + 1)%Z /\
  make_animation (FLUX (cutout_table five_frames)) (Z.of_nat 2)
    (Some (Z.of_nat 4))
  = Some <$> take (4 - 2 + 1)%nat (drop 2 (FLUX (cutout_table five_frames))).
Proof.
  assert ((find_index 1333.9 five_frames).1 = Ok 2%nat) as H1
      by (vm_compute; reflexivity).
  assert ((find_index 1334.9 five_frames).1 = Ok 4%nat) as H2
      by (vm_compute; reflexivity).
  assert (length (FLUX (cutout_table five_frames))
          = length (TIME (cutout_table five_frames))) as H3 by reflexivity.
  assert (2 <= 4)%nat as H4 by lia.
  assert (4%nat <> 0%nat) as H5 by lia.
  split; [exact H1|]. split; [exact H2|]. split; [exact H3|].
  split; [exact H4|]. split; [exact H5|].
  exact (proj2 (proj2 (proj2 frame_range_inclusive))
           five_frames 1333.9%Q 1334.9%Q 2%nat 4%nat H1 H2 H3 H4 H5).
Defined.


End Concrete.

(** * Further properties of the notebook's code *)

(** ** [find_index]: bounds, exact hits, ordered timestamps *)

Section FindIndexMore.

#[local] Open Scope Q_scope.

Lemma find_index_Ok_nearest (g : globals) (btjd : Q) (i : nat) :
  (find_index btjd g).1 = Ok i -> nearest_first (TIME (cutout_table g)) btjd i.
Proof.
  intros Hi. destruct (TIME (cutout_table g)) as [|t ts] eqn:Hts.
  { unfold find_index in Hi; simpl in Hi. by rewrite Hts in Hi. }
  destruct (find_index_spec g btjd) as (i' & Hi' & Hnear).
  { by rewrite Hts. }
  rewrite Hi in Hi'. injection Hi' as <-. by rewrite <- Hts.
Qed.

(** [find_index] returns an index exactly when the [TIME] column has an
    element, and the index it returns is a row of the column, hence of
    every column aligned with it. *)
Theorem find_index_returns_a_row (g : globals) (btjd : Q) :
  (TIME (cutout_table g) <> [] <->
   exists i, (find_index btjd g).1 = Ok i) /\
  (forall i, (find_index btjd g).1 = Ok i ->
     length (FLUX (cutout_table g)) = length (TIME (cutout_table g)) ->
     is_Some (TIME (cutout_table g) !! i) /\
     is_Some (FLUX (cutout_table g) !! i)).
Proof.
  split.
  - split.
    + intros Hne. destruct (find_index_spec g btjd Hne) as (i & Hi & _). eauto.
    + intros [i Hi] Hnil. unfold find_index in Hi. simpl in Hi.
      by rewrite Hnil in Hi.
  - intros i Hi Hlen. apply find_index_lt in Hi.
    split; apply lookup_lt_is_Some; lia.
Qed.

Lemma distance_zero t q : t == q -> distance t q == 0.
Proof.
  intros H. unfold distance. apply Qabs_case; intros; lra.
Qed.

Lemma distance_pos t q : 0 < distance t q -> ~ t == q.
Proof.
  intros H Heq. pose proof (distance_zero _ _ Heq). lra.
Qed.

Lemma distance_nonneg t q : 0 <= distance t q.
Proof. apply Qabs_nonneg. Qed.

Lemma distance_zero_inv t q : distance t q <= 0 -> t == q.
Proof.
  unfold distance. apply Qabs_case; intros; lra.
Qed.

(** When the query is one of the timestamps, [find_index] returns the
    first index that holds it. *)
Theorem find_index_exact_hit (g : globals) (btjd : Q) (k : nat) (t : Q) :
  TIME (cutout_table g) !! k = Some t -> t == btjd ->
  exists i u,
    (find_index btjd g).1 = Ok i /\ (i <= k)%nat /\
    TIME (cutout_table g) !! i = Some u /\ u == btjd /\
    (forall j v, (j < i)%nat -> TIME (cutout_table g) !! j = Some v ->
                 ~ v == btjd).
Proof.
  intros Hk Heq.
  destruct (find_index_spec g btjd) as (i & Hi & (u & Hu & Hle & Hlt)).
  { intros Hnil. by rewrite Hnil in Hk. }
  pose proof (distance_zero _ _ Heq) as H0.
  exists i, u. split; [done|]. split; [|split; [done|split]].
  - destruct (decide (i <= k)%nat) as [|Hgt]; [done|]. exfalso.
    assert (distance u btjd < distance t btjd) as H by (apply (Hlt k); [done|lia]).
    rewrite H0 in H. pose proof (distance_nonneg u btjd). lra.
  - apply distance_zero_inv. rewrite <- H0. by apply (Hle k).
  - intros j v Hj Hv. apply distance_pos.
    apply Qle_lt_trans with (distance u btjd); [apply distance_nonneg|].
    by apply (Hlt j).
Qed.

Lemma find_index_exact_hit_witness :
  TIME (cutout_table five_frames) !! 3%nat = Some 1334.5 /\
  1334.5 == 1334.5 /\
  exists i u,
    (find_index 1334.5 five_frames).1 = Ok i /\ (i <= 3)%nat /\
    TIME (cutout_table five_frames) !! i = Some u /\ u == 1334.5 /\
    (forall j v, (j < i)%nat -> TIME (cutout_table five_frames) !! j = Some v ->
                 ~ v == 1334.5).
Proof.
  split; [reflexivity|]. split; [reflexivity|].
  apply (find_index_exact_hit five_frames 1334.5 3 1334.5); reflexivity.
Defined.


Lemma ascending_five : ascending (TIME (cutout_table five_frames)).
Proof.
  intros i j ti tj Hij Hi Hj. simpl in Hi, Hj.
  do 5 (destruct i as [|i]; [ injection Hi as <-;
        do 5 (destruct j as [|j]; [injection Hj as <-; (lia || by vm_compute)|]);
        done |]).
  done.
Qed.

Lemma strictly_ascending_five : strictly_ascending (TIME (cutout_table five_frames)).
Proof.
  intros i j ti tj Hij Hi Hj. simpl in Hi, Hj.
  do 5 (destruct i as [|i]; [ injection Hi as <-;
        do 5 (destruct j as [|j]; [injection Hj as <-; (lia || by vm_compute)|]);
        done |]).
  done.
Qed.


Lemma find_index_monotone_aux (ts : list Q) (q1 q2 : Q) (i1 i2 : nat) :
  ascending ts -> q1 <= q2 ->
  nearest_first ts q1 i1 -> nearest_first ts q2 i2 -> (i1 <= i2)%nat.
Proof.
  intros Hasc Hq (b & Hb & _ & Hlt1) (a & Ha & Hle2 & _).
  destruct (decide (i1 <= i2)%nat) as [|Hgt]; [done|]. exfalso.
  assert (a <= b) as Hab by (apply (Hasc i2 i1); [lia|done|done]).
  assert (distance b q1 < distance a q1) as H1 by (apply (Hlt1 i2); [done|lia]).
  pose proof (Hle2 i1 b Hb) as H2.
  revert H1 H2. unfold distance.
  do 4 (apply Qabs_case; intros ?); intros; lra.
Qed.



Lemma find_index_returns_a_row_witness :
  (find_index 1334 five_frames).1 = Ok 2%nat /\
  length (FLUX (cutout_table five_frames))
  = length (TIME (cutout_table five_frames)) /\
  is_Some (TIME (cutout_table five_frames) !! 2%nat) /\
  is_Some (FLUX (cutout_table five_frames) !! 2%nat).
Proof.
  assert ((find_index 1334 five_frames).1 = Ok 2%nat) as H1 by (by vm_compute).
  split; [exact H1|]. split; [reflexivity|].
  exact (proj2 (find_index_returns_a_row five_frames 1334) 2%nat H1 eq_refl).
Defined.

End FindIndexMore.

(** ** [make_animation]: defaults, bounds and the colour range *)

Section AnimationMore.

#[local] Open Scope Q_scope.

Lemma frames_in_range {A} (data_array : list A) (s n : nat) (end_frame : option Z) :
  num_frames (Z.of_nat (length data_array)) (Z.of_nat s) end_frame = Z.of_nat n ->
  (s + n <= length data_array)%nat ->
  make_animation data_array (Z.of_nat s) end_frame
  = Some <$> take n (drop s data_array).
Proof.
  intros Hn Hlen. unfold make_animation, frames_shown.
  rewrite Hn, Nat2Z.id, <- list_fmap_compose.
  apply list_eq. intros k. rewrite !list_lookup_fmap.
  destruct (decide (k < n)%nat) as [Hk|Hk].
  - rewrite lookup_seq_lt by done. simpl.
    rewrite lookup_take_lt, lookup_drop by done.
    replace (Z.of_nat k + Z.of_nat s)%Z with (Z.of_nat (s + k)) by lia.
    rewrite py_getitem_nat.
    destruct (lookup_lt_is_Some_2 data_array (s + k)) as [x ->]; [lia|done].
  - rewrite lookup_seq_ge by lia. by rewrite lookup_take_ge by lia.
Qed.

(** Without an end index the animation runs from the start frame to the
    last frame of the array, and an end index of 0 is read as no end
    index: it gives that same run, not the single frame 0. *)
Theorem make_animation_default_end {A} (data_array : list A) (s : nat) :
  (s < length data_array)%nat ->
  make_animation data_array (Z.of_nat s) None = Some <$> drop s data_array /\
  make_animation data_array (Z.of_nat s) (Some 0%Z) = Some <$> drop s data_array.
Proof.
  intros Hs.
  assert (forall e, py_not e = true ->
            make_animation data_array (Z.of_nat s) e = Some <$> drop s data_array)
    as H.
  { intros e He.
    rewrite (frames_in_range data_array s (length data_array - s)).
    - rewrite take_ge; [done|]. rewrite length_drop. lia.
    - unfold num_frames. rewrite He. lia.
    - lia. }
  split; by apply H.
Qed.

Lemma make_animation_default_end_witness :
  (1 < length [10; 20; 30])%nat /\
  make_animation [10; 20; 30] (Z.of_nat 1) None = Some <$> drop 1 [10; 20; 30] /\
  make_animation [10; 20; 30] (Z.of_nat 1) (Some 0%Z)
  = Some <$> drop 1 [10; 20; 30].
Proof.
  assert (1 < length [10; 20; 30])%nat as H by (simpl; lia).
  split; [exact H|].
  exact (make_animation_default_end [10; 20; 30] 1 H).
Defined.



Lemma Qmin_cases x y : Qmin x y = x \/ Qmin x y = y.
Proof. unfold Qmin, GenericMinMax.gmin. destruct (x ?= y); auto. Qed.

Lemma Qmax_cases x y : Qmax x y = x \/ Qmax x y = y.
Proof. unfold Qmax, GenericMinMax.gmax. destruct (x ?= y); auto. Qed.

Lemma foldl_Qmin_spec (a : list Q) : forall x,
  (foldl Qmin x a = x \/ foldl Qmin x a ∈ a) /\
  foldl Qmin x a <= x /\ (forall p, p ∈ a -> foldl Qmin x a <= p).
Proof.
  induction a as [|y a IH]; intros x; simpl.
  - split; [by left|]. split; [apply Qle_refl|]. intros p Hp.
    by apply elem_of_nil in Hp.
  - destruct (IH (Qmin x y)) as (Hin & Hle & Hall).
    pose proof (Q.le_min_l x y). pose proof (Q.le_min_r x y).
    split; [|split].
    + destruct Hin as [->|Hin]; [|right; by right].
      destruct (Qmin_cases x y) as [->| ->]; [by left|right; by left].
    + lra.
    + intros p Hp. apply elem_of_cons in Hp as [->|Hp]; [lra|by apply Hall].
Qed.

Lemma foldl_Qmax_spec (a : list Q) : forall x,
  (foldl Qmax x a = x \/ foldl Qmax x a ∈ a) /\
  x <= foldl Qmax x a /\ (forall p, p ∈ a -> p <= foldl Qmax x a).
Proof.
  induction a as [|y a IH]; intros x; simpl.
  - split; [by left|]. split; [apply Qle_refl|]. intros p Hp.
    by apply elem_of_nil in Hp.
  - destruct (IH (Qmax x y)) as (Hin & Hle & Hall).
    pose proof (Q.le_max_l x y). pose proof (Q.le_max_r x y).
    split; [|split].
    + destruct Hin as [->|Hin]; [|right; by right].
      destruct (Qmax_cases x y) as [->| ->]; [by left|right; by left].
    + lra.
    + intros p Hp. apply elem_of_cons in Hp as [->|Hp]; [lra|by apply Hall].
Qed.

Lemma np_min_spec (a : list Q) lo :
  np_min a = Some lo -> lo ∈ a /\ forall p, p ∈ a -> lo <= p.
Proof.
  destruct a as [|x a]; [done|]. simpl. intros [= <-].
  destruct (foldl_Qmin_spec a x) as (Hin & Hle & Hall). split.
  - destruct Hin as [->|Hin]; [by left|by right].
  - intros p Hp. apply elem_of_cons in Hp as [->|Hp]; auto.
Qed.

Lemma np_max_spec (a : list Q) hi :
  np_max a = Some hi -> hi ∈ a /\ forall p, p ∈ a -> p <= hi.
Proof.
  destruct a as [|x a]; [done|]. simpl. intros [= <-].
  destruct (foldl_Qmax_spec a x) as (Hin & Hle & Hall). split.
  - destruct Hin as [->|Hin]; [by left|by right].
  - intros p Hp. apply elem_of_cons in Hp as [->|Hp]; auto.
Qed.

(** The colour range of an animation.  A limit that is missing, or given
    as zero, is taken from the data: the lower one is then the least
    pixel of the array and the upper one the greatest, so every pixel
    lies in the range; a limit given as a number other than zero is used
    as it is. *)
Theorem colour_limits_from_data (data_array : list image) (vmin vmax : option Q)
    (lo hi : Q) :
  colour_limits data_array vmin vmax = inr (lo, hi) ->
  (py_not_number vmin = true ->
   lo ∈ pixels data_array /\ forall p, p ∈ pixels data_array -> lo <= p) /\
  (py_not_number vmax = true ->
   hi ∈ pixels data_array /\ forall p, p ∈ pixels data_array -> p <= hi) /\
  (forall v, vmin = Some v -> ~ v == 0 -> lo = v) /\
  (forall v, vmax = Some v -> ~ v == 0 -> hi = v).
Proof.
  unfold colour_limits. intros H.
  destruct (py_not_number vmin) eqn:Hvmin, (py_not_number vmax) eqn:Hvmax.
  - destruct (np_min _) as [lo'|] eqn:Hlo; [|done].
    destruct (np_max _) as [hi'|] eqn:Hhi; [|done].
    injection H as <- <-. split; [intros _; by apply np_min_spec|].
    split; [intros _; by apply np_max_spec|].
    split; intros v -> Hv; simpl in *; apply Qeq_bool_iff in Hvmin || apply Qeq_bool_iff in Hvmax; done.
  - destruct (np_min _) as [lo'|] eqn:Hlo; [|done].
    destruct vmax as [hi'|]; [|done]. injection H as <- <-.
    split; [intros _; by apply np_min_spec|]. split; [done|].
    split; [|by intros v [= ->]].
    intros v -> Hv. simpl in Hvmin. by apply Qeq_bool_iff in Hvmin.
  - destruct vmin as [lo'|]; [|done].
    destruct (np_max _) as [hi'|] eqn:Hhi; [|done]. injection H as <- <-.
    split; [done|]. split; [intros _; by apply np_max_spec|].
    split; [by intros v [= ->]|].
    intros v -> Hv. simpl in Hvmax. by apply Qeq_bool_iff in Hvmax.
  - destruct vmin as [lo'|]; [|done]. destruct vmax as [hi'|]; [|done].
    injection H as <- <-. split; [done|]. split; [done|].
    split; by intros v [= ->].
Qed.

Lemma colour_limits_from_data_witness :
  colour_limits two_images (Some 0) (Some 500) = inr (0.5, 500) /\
  py_not_number (Some 0) = true /\
  0.5 ∈ pixels two_images /\
  forall p, p ∈ pixels two_images -> 0.5 <= p.
Proof.
  assert (colour_limits two_images (Some 0) (Some 500)
          = inr (0.5, 500)) as H by (by vm_compute).
  split; [exact H|]. split; [reflexivity|].
  exact (proj1 (colour_limits_from_data two_images (Some 0) (Some 500)
                  0.5 500 H) eq_refl).
Defined.

Lemma colour_limits_nonempty (data_array : list image) (vmin vmax : option Q) :
  pixels data_array <> [] -> exists lim, colour_limits data_array vmin vmax = inr lim.
Proof.
  intros Hne. unfold colour_limits.
  destruct (pixels data_array) as [|x a]; [done|]. simpl.
  destruct vmin as [lo|], vmax as [hi|]; simpl;
    repeat (match goal with |- context [Qeq_bool ?a ?b] =>
                              destruct (Qeq_bool a b) end);
    by eexists.
Qed.

Lemma py_getitem_is_Some {A} (a : list A) (k : Z) :
  is_Some (py_getitem a k)
  <-> (- Z.of_nat (length a) <= k < Z.of_nat (length a))%Z.
Proof.
  unfold py_getitem.
  destruct (Z.ltb_spec k 0); [destruct (Z.ltb_spec (Z.of_nat (length a) + k) 0)|].
  - split; [by intros [? ?]|lia].
  - rewrite lookup_lt_is_Some. lia.
  - rewrite lookup_lt_is_Some. lia.
Qed.





End AnimationMore.

(** ** [json_to_table]: success, first error, order of the columns *)

Section JsonToTableMore.

Context {ext : Externals}.
Implicit Types (data : list (gmap string pyval)) (x : field).

Lemma builds_inv data x c :
  new_column data x = Ok c -> recognized x /\ convertible data x.
Proof.
  rewrite new_column_storage. unfold recognized, convertible.
  destruct (storage_type (datatype x)) as [dt|]; [|done]. simpl. intros H.
  split; [by eexists|]. intros dt' [= <-]. by eexists.
Qed.

(** [json_to_table] returns a table exactly when every schema entry is
    fine on its own: its declared type is recognized and the values the
    rows hold for it convert.  No failure comes from putting the columns
    together. *)
Theorem json_to_table_succeeds_iff (fields : list field) data :
  (exists tb, json_to_table fields data = Ok tb)
  <-> Forall (fun x => recognized x /\ convertible data x) fields.
Proof.
  split.
  - intros [tb Htb]. unfold json_to_table in Htb.
    apply loop_inv in Htb as (l & Hl & _); [|apply uniform_nil].
    induction Hl as [|x nc fields l [_ Hc] _ IH]; constructor; [|done].
    by eapply builds_inv.
  - intros Hall. destruct (json_to_table_ok fields data) as (l & _ & Htb).
    + eapply Forall_impl; [exact Hall|]. intros y [? ?]. by apply builds.
    + by eexists.
Qed.

(** The exception of [json_to_table] is the one of the first schema
    entry whose column cannot be built; the entries after it are never
    looked at, whatever they are. *)
Theorem json_to_table_first_error (pre post post' : list field) x data e :
  Forall (fun y => recognized y /\ convertible data y) pre ->
  new_column data x = Raise e ->
  json_to_table (pre ++ x :: post) data = Raise e /\
  json_to_table (pre ++ x :: post') data = json_to_table (pre ++ x :: post) data.
Proof.
  intros Hpre Hx.
  assert (forall p, json_to_table (pre ++ x :: p) data = Raise e) as H.
  { intros p. apply loop_raise; [apply uniform_nil| |done].
    eapply Forall_impl; [exact Hpre|]. intros y [? ?]. by apply builds. }
  by rewrite !H.
Qed.

Lemma colnames_build_first_occurrences l : forall tb,
  Table.colnames (build tb l)
  = foldl (fun acc n => if decide (n ∈ acc) then acc else acc ++ [n])
      (Table.colnames tb) l.*1.
Proof.
  induction l as [|[n c] l IH]; intros tb; [done|].
  unfold build in *. rewrite fmap_cons. simpl. rewrite IH.
  by rewrite colnames_upsert.
Qed.



Lemma without_nulls_lookup (r : gmap string pyval) (k : string) :
  default PNone (without_nulls r !! k) = default PNone (r !! k).
Proof.
  unfold without_nulls.
  destruct (filter _ r !! k) as [v|] eqn:E.
  - apply map_lookup_filter_Some in E as [-> _]. done.
  - apply map_lookup_filter_None in E as [->|E]; [done|].
    destruct (r !! k) as [v|] eqn:Hv; [|done]. simpl.
    specialize (E v eq_refl). simpl in E. by destruct v.
Qed.

(** A key that a row maps to [None] counts as a missing key: dropping
    such keys from the rows changes neither the table nor the
    exception. *)
Theorem null_is_missing (fields : list field) data :
  json_to_table fields (without_nulls <$> data) = json_to_table fields data.
Proof.
  unfold json_to_table. apply for_each_ext. intros x _ tb.
  unfold add_field, new_column.
  replace (column_values (strip (colname x)) (without_nulls <$> data))
    with (column_values (strip (colname x)) data); [done|].
  unfold column_values. rewrite <- list_fmap_compose.
  apply list_fmap_ext. intros i r _. simpl. by rewrite without_nulls_lookup.
Qed.


Lemma comprehension_first_raise {A B} (f : A -> result B) (l : list A) e :
  Forall (fun a => (exists b, f a = Ok b) \/ f a = Raise e) l ->
  Exists (fun a => f a = Raise e) l ->
  comprehension f l = Raise e.
Proof.
  induction 1 as [|a l Ha Hl IH]; intros Hex; [by inversion Hex|].
  simpl. destruct Ha as [[b Hb]|Hb]; rewrite Hb; [|done]. simpl.
  inversion Hex as [? ? Hbad|? ? Hex']; subst.
  - congruence.
  - by rewrite IH.
Qed.

(** In a column stored as int64 a missing key is an error: when some
    row lacks the key of the entry (or maps it to [None]) and the other
    values of the column convert, the column raises the TypeError of
    [None], and so does [json_to_table] once the entries before it have
    been built. *)
Theorem int_column_missing_key_raises (pre post : list field) x data :
  storage_type (datatype x) = Ok Int64 ->
  Forall (fun y => recognized y /\ convertible data y) pre ->
  (forall row v, row ∈ data -> row !! col_key x = Some v -> v <> PNone ->
                 exists z, int_of_scalar v = Ok z) ->
  (exists row, row ∈ data /\ default PNone (row !! col_key x) = PNone) ->
  new_column data x = Raise TypeError_int_NoneType /\
  json_to_table (pre ++ x :: post) data = Raise TypeError_int_NoneType.
Proof.
  intros Hdt Hpre Hvals (row & Hrow & Hnone).
  assert (new_column data x = Raise TypeError_int_NoneType) as Hx.
  { rewrite new_column_storage, Hdt. simpl.
    rewrite (comprehension_first_raise _ _ TypeError_int_NoneType); [done| |].
    - apply Forall_forall. intros v Hv. unfold column_values in Hv.
      apply list_elem_of_fmap in Hv as (r & -> & Hr).
      destruct (r !! col_key x) as [v|] eqn:E; simpl; [|by right].
      destruct (decide (is_None v = true)) as [Hn|Hn].
      + destruct v; try done. by right.
      + left. destruct (Hvals r v Hr E) as [z Hz]; [by destruct v|].
        exists z. by destruct v.
    - apply Exists_exists. exists PNone. split; [|done].
      unfold column_values. apply list_elem_of_fmap. exists row.
      by rewrite Hnone. }
  split; [done|]. apply loop_raise; [apply uniform_nil| |done].
  eapply Forall_impl; [exact Hpre|]. intros y [? ?]. by apply builds.
Qed.

(** A cell depends on its own row alone: two row sequences that hold
    the same row at position [i] give, under each name, columns with the
    same cell at position [i], whatever the other rows are. *)
Theorem cell_depends_on_its_row (fields : list field) data data' tb tb' x
    (i : nat) row :
  json_to_table fields data = Ok tb ->
  json_to_table fields data' = Ok tb' ->
  last_with_key fields x ->
  data !! i = Some row -> data' !! i = Some row ->
  exists c c' cl,
    Table.getitem tb (col_key x) = Some c /\
    Table.getitem tb' (col_key x) = Some c' /\
    getcell c i = Some cl /\ getcell c' i = Some cl.
Proof.
  intros Htb Htb' Hx Hi Hi'.
  destruct (json_to_table_getitem _ _ _ _ Htb Hx) as (c & Hc & Hget).
  destruct (json_to_table_getitem _ _ _ _ Htb' Hx) as (c' & Hc' & Hget').
  destruct (builds_inv _ _ _ Hc) as [[dt Hdt] _].
  destruct (new_column_cell data x c dt i row Hc Hdt Hi) as (cl & Hcl & Hcell).
  destruct (new_column_cell data' x c' dt i row Hc' Hdt Hi') as (cl' & Hcl' & Hcell').
  exists c, c', cl. split; [done|]. split; [done|]. split; [done|]. congruence.
Qed.

End JsonToTableMore.

(** ** The pattern, [strip] and the text of a width *)

Section TextMore.

#[local] Open Scope string_scope.

Lemma leftmost_marker_cons c s ds :
  rx_match (String c s) = None -> leftmost_marker s ds ->
  leftmost_marker (String c s) ds.
Proof.
  intros Hno (before & after & -> & Hne & Hall & Hk).
  exists (String c before), after. split; [done|]. split; [done|].
  split; [done|]. intros [|k] Hlt; [exact Hno|].
  apply Hk. simpl in Hlt. lia.
Qed.

Lemma rx_search_leftmost_inv atype ds :
  rx_search atype = Some ds -> leftmost_marker atype ds.
Proof.
  induction atype as [|c s IH]; [done|]. cbn [rx_search].
  destruct (rx_match (String c s)) as [g|] eqn:E.
  - intros [= ->]. apply rx_match_Some in E as (Hne & Hall & after & E).
    exists EmptyString, after. split; [exact E|]. split; [done|].
    split; [done|]. intros k Hk. simpl in Hk. lia.
  - intros H. by apply leftmost_marker_cons, IH.
Qed.

Lemma rx_search_None_inv atype :
  rx_search atype = None -> forall k, rx_match (drop_chars k atype) = None.
Proof.
  induction atype as [|c s IH]; intros H k.
  - by destruct k.
  - cbn [rx_search] in H.
    destruct (rx_match (String c s)) eqn:E; [done|].
    destruct k as [|k]; [exact E|]. by apply IH.
Qed.

(** What [rx.search] finds.  It returns digits [ds] exactly when the
    text holds ["varchar(" ++ ds ++ ")"], with [ds] a non-empty run of
    digits, and the pattern matches nowhere further left; it returns
    nothing exactly when the pattern matches at no position, which is
    when a type that mentions ["varchar"] raises AttributeError. *)
Theorem rx_search_finds_leftmost (atype : string) :
  (forall ds, rx_search atype = Some ds <-> leftmost_marker atype ds) /\
  (rx_search atype = None <-> forall k, rx_match (drop_chars k atype) = None) /\
  (storage_name atype = Raise AttributeError_NoneType_group
   <-> contains "varchar" atype = true /\ rx_search atype = None).
Proof.
  split; [|split].
  - intros ds. split; [apply rx_search_leftmost_inv|apply rx_search_leftmost].
  - split; [apply rx_search_None_inv|].
    intros Hno. destruct (rx_search atype) as [ds|] eqn:E; [|done].
    apply rx_search_leftmost_inv in E
      as (before & after & -> & Hne & Hall & _).
    specialize (Hno (String.length before)).
    assert (forall b r, drop_chars (String.length b) (b +:+ r) = r) as Hdrop.
    { induction b as [|c b IHb]; intros r; simpl; [by destruct r|apply IHb]. }
    rewrite Hdrop in Hno.
    by rewrite (rx_match_marker ds after Hne Hall) in Hno.
  - unfold storage_name. destruct (contains "varchar" atype); simpl.
    + destruct (rx_search atype); simpl; split; try done; by intros [_ ?].
    + split; [done|by intros [? _]].
Qed.

Lemma lstrip_no_leading_space s : no_leading_space (lstrip s).
Proof.
  induction s as [|c s IH]; simpl; [done|].
  destruct (is_space c) eqn:E; [done|]. simpl. done.
Qed.

Lemma lstrip_id s : no_leading_space s -> lstrip s = s.
Proof. destruct s as [|c s]; simpl; [done|]. by intros ->. Qed.

Lemma rstrip_no_leading_space s : no_leading_space s -> no_leading_space (rstrip s).
Proof.
  destruct s as [|c s]; simpl; [done|]. intros Hc.
  destruct (rstrip s); simpl; [by rewrite Hc|done].
Qed.

Lemma rstrip_idempotent s : rstrip (rstrip s) = rstrip s.
Proof.
  induction s as [|c s IH]; [done|].
  change (rstrip (String c s))
    with (match rstrip s with
          | EmptyString => if is_space c then EmptyString else String c EmptyString
          | String d r => String c (String d r)
          end).
  destruct (rstrip s) as [|d r] eqn:E.
  - destruct (is_space c) eqn:Hc; simpl; [done|]. by rewrite Hc.
  - change (rstrip (String c (String d r)))
      with (match rstrip (String d r) with
            | EmptyString => if is_space c then EmptyString else String c EmptyString
            | String d' r' => String c (String d' r')
            end).
    by rewrite IH.
Qed.

Lemma lstrip_all_space s : all_space s = true -> lstrip s = EmptyString.
Proof.
  induction s as [|c s IH]; simpl; [done|].
  intros H. apply andb_true_iff in H as [-> H]. by apply IH.
Qed.

Lemma rstrip_all_space s : all_space s = true -> rstrip s = EmptyString.
Proof.
  induction s as [|c s IH]; simpl; [done|].
  intros H. apply andb_true_iff in H as [Hc H]. by rewrite IH, Hc.
Qed.

Lemma lstrip_app_space pre s :
  all_space pre = true -> lstrip (pre +:+ s) = lstrip s.
Proof.
  induction pre as [|c pre IH]; simpl; [done|].
  intros H. apply andb_true_iff in H as [-> H]. by apply IH.
Qed.

Lemma rstrip_app_space s post :
  all_space post = true -> rstrip (s +:+ post) = rstrip s.
Proof.
  intros H. induction s as [|c s IH]; simpl; [by apply rstrip_all_space|].
  by rewrite IH.
Qed.

Lemma lstrip_app s post :
  lstrip (s +:+ post)
  = if all_space s then lstrip post else lstrip s +:+ post.
Proof.
  induction s as [|c s IH]; simpl; [done|].
  destruct (is_space c); simpl; [exact IH|done].
Qed.

(** [strip] removes the whitespace around a name: the result does not
    start with whitespace, stripping it again, on the right or on both
    sides, changes nothing, and whitespace added around a name does not
    change its stripped form, so names that differ only by such padding
    are stored under one key. *)
Theorem strip_removes_padding (s : string) :
  strip (strip s) = strip s /\
  no_leading_space (strip s) /\
  rstrip (strip s) = strip s /\
  (forall pre post, all_space pre = true -> all_space post = true ->
     strip (pre +:+ s +:+ post) = strip s) /\
  (forall pre post atype atype',
     all_space pre = true -> all_space post = true ->
     col_key (entry (pre +:+ s +:+ post) atype) = col_key (entry s atype')).
Proof.
  assert (forall pre post, all_space pre = true -> all_space post = true ->
            strip (pre +:+ s +:+ post) = strip s) as Hpad.
  { intros pre post Hpre Hpost. unfold strip.
    rewrite lstrip_app_space by done. rewrite lstrip_app.
    destruct (all_space s) eqn:Hs.
    - by rewrite (lstrip_all_space post), (lstrip_all_space s).
    - by apply rstrip_app_space. }
  split; [|split; [|split; [|split]]].
  - unfold strip. rewrite (lstrip_id (rstrip (lstrip s))).
    + apply rstrip_idempotent.
    + apply rstrip_no_leading_space, lstrip_no_leading_space.
  - apply rstrip_no_leading_space, lstrip_no_leading_space.
  - apply rstrip_idempotent.
  - exact Hpad.
  - intros pre post atype atype' Hpre Hpost. unfold col_key. simpl.
    by apply Hpad.
Qed.

Lemma strip_removes_padding_witness :
  all_space " " = true /\ all_space "  " = true /\
  strip (" " +:+ "TIME" +:+ "  ") = strip "TIME".
Proof.
  assert (all_space " " = true) as H1 by reflexivity.
  assert (all_space "  " = true) as H2 by reflexivity.
  split; [exact H1|]. split; [exact H2|].
  exact (proj1 (proj2 (proj2 (proj2 (strip_removes_padding "TIME"))))
           " " "  " H1 H2).
Defined.

End TextMore.

(** ** The text of a width and the width it gives *)

Section MarkerWidth.

Context {ext : Externals}.

#[local] Open Scope string_scope.

Lemma decimal_value_from_of_uint_acc (d : Decimal.uint) : forall acc,
  decimal_value_from (Pos.to_nat acc) (NilEmpty.string_of_uint d)
  = Pos.to_nat (Pos.of_uint_acc d acc).
Proof.
  induction d as [|d IH|d IH|d IH|d IH|d IH|d IH|d IH|d IH|d IH|d IH];
    intros acc; [done|..];
    cbn [NilEmpty.string_of_uint decimal_value_from Pos.of_uint_acc];
    rewrite <- IH; f_equal; unfold digit_value, code; simpl; lia.
Qed.

Lemma decimal_value_of_uint (d : Decimal.uint) :
  decimal_value (NilEmpty.string_of_uint d) = N.to_nat (Pos.of_uint d).
Proof.
  unfold decimal_value.
  induction d as [|d IH|d IH|d IH|d IH|d IH|d IH|d IH|d IH|d IH|d IH];
    [done|exact IH|..];
    cbn [NilEmpty.string_of_uint decimal_value_from Pos.of_uint];
    match goal with
    | |- _ = N.to_nat (N.pos ?p) => change (N.to_nat (N.pos p)) with (Pos.to_nat p)
    end;
    rewrite <- decimal_value_from_of_uint_acc; f_equal.
Qed.

Lemma all_digits_of_uint (d : Decimal.uint) :
  all_digits (NilEmpty.string_of_uint d) = true.
Proof.
  induction d as [|d IH|d IH|d IH|d IH|d IH|d IH|d IH|d IH|d IH|d IH];
    [done|..]; cbn [NilEmpty.string_of_uint all_digits]; by rewrite IH.
Qed.

Lemma str_int_of_nat (n : nat) :
  all_digits (str_int (Z.of_nat n)) = true /\
  decimal_value (str_int (Z.of_nat n)) = n /\
  str_int (Z.of_nat n) <> EmptyString.
Proof.
  destruct n as [|m]; [by split|].
  unfold str_int. rewrite Nat2Z.inj_succ, <- Zpos_P_of_succ_nat.
  cbn [Z.to_int NilEmpty.string_of_int].
  assert (decimal_value (NilEmpty.string_of_uint
                           (Pos.to_uint (Pos.of_succ_nat m))) = S m) as Hval.
  { rewrite decimal_value_of_uint, DecimalPos.Unsigned.of_to. simpl.
    apply SuccNat2Pos.id_succ. }
  split; [apply all_digits_of_uint|]. split; [done|].
  intros Hnil. by rewrite Hnil in Hval.
Qed.


End MarkerWidth.

(** ** The further properties on concrete inputs *)

Section ConcreteMore.

#[local] Open Scope string_scope.

Lemma time_entry_builds :
  Forall (fun y => recognized y /\ convertible light_curve_rows y) [time_entry].
Proof.
  repeat constructor; try (by eexists);
    intros dt H; vm_compute in H; injection H as <-; by eexists.
Qed.

Lemma json_to_table_first_error_witness :
  Forall (fun y => recognized y /\ convertible light_curve_rows y) [time_entry] /\
  new_column light_curve_rows (entry "FLAG" "varchar")
  = Raise AttributeError_NoneType_group /\
  json_to_table ([time_entry] ++ entry "FLAG" "varchar" :: []) light_curve_rows
  = Raise AttributeError_NoneType_group /\
  json_to_table ([time_entry] ++ entry "FLAG" "varchar" :: [entry "Z" "bogus"])
    light_curve_rows
  = json_to_table ([time_entry] ++ entry "FLAG" "varchar" :: []) light_curve_rows.
Proof.
  assert (new_column light_curve_rows (entry "FLAG" "varchar")
          = Raise AttributeError_NoneType_group) as H by (by vm_compute).
  split; [exact time_entry_builds|]. split; [exact H|].
  exact (json_to_table_first_error [time_entry] [] [entry "Z" "bogus"]
           (entry "FLAG" "varchar") light_curve_rows
           AttributeError_NoneType_group time_entry_builds H).
Defined.


Lemma cell_depends_on_its_row_witness :
  json_to_table light_curve_fields light_curve_rows = Ok light_curve_table /\
  json_to_table light_curve_fields [ {[ "TIME" := PInt 7 ]}; {[ "TIME" := PInt 1331 ]} ]
  = Ok [("TIME", FloatArr [Fin (inject_Z 7); Fin (inject_Z 1331)]);
        ("TARGET", UArr 3 ["Non"; "Non"])] /\
  last_with_key light_curve_fields time_entry /\
  light_curve_rows !! 1%nat = Some {[ "TIME" := PInt 1331 ]} /\
  exists c c' cl,
    Table.getitem light_curve_table (col_key time_entry) = Some c /\
    Table.getitem
      [("TIME", FloatArr [Fin (inject_Z 7); Fin (inject_Z 1331)]);
       ("TARGET", UArr 3 ["Non"; "Non"])] (col_key time_entry) = Some c' /\
    getcell c 1 = Some cl /\ getcell c' 1 = Some cl.
Proof.
  assert (json_to_table light_curve_fields light_curve_rows
          = Ok light_curve_table) as H1 by (by vm_compute).
  assert (json_to_table light_curve_fields
            [ {[ "TIME" := PInt 7 ]}; {[ "TIME" := PInt 1331 ]} ]
          = Ok [("TIME", FloatArr [Fin (inject_Z 7); Fin (inject_Z 1331)]);
                ("TARGET", UArr 3 ["Non"; "Non"])]) as H2 by (by vm_compute).
  assert (light_curve_rows !! 1%nat = Some {[ "TIME" := PInt 1331 ]}) as H3
      by reflexivity.
  split; [exact H1|]. split; [exact H2|]. split; [exact last_with_key_time|].
  split; [exact H3|].
  exact (cell_depends_on_its_row light_curve_fields light_curve_rows
           [ {[ "TIME" := PInt 7 ]}; {[ "TIME" := PInt 1331 ]} ]
           light_curve_table _ time_entry 1 {[ "TIME" := PInt 1331 ]}
           H1 H2 last_with_key_time H3 eq_refl).
Defined.




Lemma int_column_missing_key_raises_witness :
  storage_type (datatype (entry "SECTOR" "int")) = Ok Int64 /\
  (exists row, row ∈ [ ({[ "SECTOR" := PInt 3 ]} : gmap string pyval); ∅ ] /\
               default PNone (row !! col_key (entry "SECTOR" "int")) = PNone) /\
  new_column [ {[ "SECTOR" := PInt 3 ]}; ∅ ] (entry "SECTOR" "int")
  = Raise TypeError_int_NoneType /\
  json_to_table ([] ++ entry "SECTOR" "int" :: [])
    [ {[ "SECTOR" := PInt 3 ]}; ∅ ]
  = Raise TypeError_int_NoneType.
Proof.
  assert (storage_type (datatype (entry "SECTOR" "int")) = Ok Int64) as H1
      by (by vm_compute).
  assert (exists row,
             row ∈ [ ({[ "SECTOR" := PInt 3 ]} : gmap string pyval); ∅ ] /\
             default PNone (row !! col_key (entry "SECTOR" "int")) = PNone)
    as H4.
  { exists ∅. split; [right; by left|by vm_compute]. }
  split; [exact H1|]. split; [exact H4|].
  apply (int_column_missing_key_raises [] [] (entry "SECTOR" "int")
           [ {[ "SECTOR" := PInt 3 ]}; ∅ ] H1 (Forall_nil_2 _)); [|exact H4].
  intros row v Hrow Hv Hne.
  apply elem_of_cons in Hrow as [->|Hrow].
  - vm_compute in Hv. injection Hv as <-. by exists 3%Z.
  - apply list_elem_of_singleton in Hrow. subst row. vm_compute in Hv.
    discriminate Hv.
Defined.

End ConcreteMore.
